(** * retry_async: a shallow embedding of [retry_async/api.py]

    The retry executor of the package is a [while] loop around one call of
    the wrapped operation.  The loop owns two local variables, [_tries] and
    [_delay], and talks to four collaborators: the operation [f], the logger,
    [time.sleep] and [random.uniform].  The embedding threads the two locals
    and a trace of every call made to a collaborator through a state and
    exception monad; the collaborators themselves are functions of the
    history, so that an operation may behave differently on each invocation.

    Numbers: the tests pass [int] values for [tries], [delay], [backoff],
    [jitter] and [max_delay]; Python [int] arithmetic is exact and unbounded
    and is modelled by [Z].  The same loop is also transcribed over an
    arbitrary kind of number (module [Generic]) and run on binary64 floats
    (module [Binary64]), where the rounding of [float] arguments shows. *)

From Stdlib Require Import ZArith List Bool Lia String.
From Stdlib Require PrimFloat.
Import ListNotations.
Open Scope Z_scope.

(** ** Python values and exceptions *)

Inductive value : Type :=
| VNone
| VInt (z : Z)
| VStr (s : string).

(** The part of the built-in exception hierarchy that the package and its
    tests touch. *)
Inductive pyclass : Type :=
| BaseException
| KeyboardInterrupt
| Exception
| ArithmeticError
| ZeroDivisionError
| OverflowError
| RuntimeError
| TypeError
| ValueError.

Definition pyclass_eqb (c d : pyclass) : bool :=
  match c, d with
  | BaseException, BaseException
  | KeyboardInterrupt, KeyboardInterrupt
  | Exception, Exception
  | ArithmeticError, ArithmeticError
  | ZeroDivisionError, ZeroDivisionError
  | OverflowError, OverflowError
  | RuntimeError, RuntimeError
  | TypeError, TypeError
  | ValueError, ValueError => true
  | _, _ => false
  end.

(** Method resolution order: the class itself, then its bases. *)
Definition mro (c : pyclass) : list pyclass :=
  match c with
  | BaseException => [BaseException]
  | KeyboardInterrupt => [KeyboardInterrupt; BaseException]
  | Exception => [Exception; BaseException]
  | ArithmeticError => [ArithmeticError; Exception; BaseException]
  | ZeroDivisionError =>
      [ZeroDivisionError; ArithmeticError; Exception; BaseException]
  | OverflowError =>
      [OverflowError; ArithmeticError; Exception; BaseException]
  | RuntimeError => [RuntimeError; Exception; BaseException]
  | TypeError => [TypeError; Exception; BaseException]
  | ValueError => [ValueError; Exception; BaseException]
  end.

Definition issubclass (c d : pyclass) : bool := existsb (pyclass_eqb d) (mro c).

(** An exception instance: its class and a tag that stands for the rest of
    the object (its arguments), so that two failures of one class can be told
    apart. *)
Record pyexn : Type := mk_exn { exc_type : pyclass; exc_tag : nat }.

(** [EXCEPTIONS = Union[Tuple[Type[Exception], ...], Type[Exception]]]. *)
Inductive EXCEPTIONS : Type :=
| OneClass (c : pyclass)
| ClassTuple (cs : list pyclass).

(** The test made by [except exceptions as e]. *)
Definition isinstance (e : pyexn) (exceptions : EXCEPTIONS) : bool :=
  match exceptions with
  | OneClass c => issubclass (exc_type e) c
  | ClassTuple cs => existsb (issubclass (exc_type e)) cs
  end.

(** ** Collaborators and the trace of their calls *)

(** What one call of the operation did. *)
Inductive outcome : Type :=
| Returns (v : value)
| Raises (e : pyexn).

(** The wait primitives a Python program can use: [time.sleep] blocks the
    calling thread (and with it the event loop that runs on it), while
    [await asyncio.sleep] suspends the calling task only. *)
Inductive wait_kind : Type :=
| Blocking
| Suspending.

Inductive event : Type :=
| EvCall (r : outcome)                 (* [f()] or [await f()] *)
| EvWarn (e : pyexn) (d : Z)           (* [logger.warning(fmt, e, d)] *)
| EvWait (k : wait_kind) (d : Z)       (* a wait of [d] seconds *)
| EvUniform (lo hi : Z) (x : Z).       (* [random.uniform(lo, hi)] gave [x] *)

(** Traces are kept newest event first. *)
Definition trace := list event.

(** The zero-argument operation handed to the executor; its behaviour may
    depend on everything that happened before the call. *)
Definition operation := trace -> outcome.

(** A logger: [None] when [warning] returns, [Some err] when it raises. *)
Definition Logger := trace -> pyexn -> Z -> option pyexn.

(** [logging.getLogger(__name__)]: a standard logger does not raise. *)
Definition logging_logger : Logger := fun _ _ _ => None.

(** The generator behind [random.uniform]. *)
Definition generator := trace -> Z -> Z -> Z.

(** [jitter]: a number, or a [(min, max)] tuple. *)
Inductive jitter_t : Type :=
| JFixed (j : Z)
| JRange (lo hi : Z).

(** ** The machine: the two locals of the loop and the trace *)

Record world : Type := mk_world {
  _tries : Z;
  _delay : Z;
  events : trace
}.

Inductive res (A : Type) : Type :=
| Val (a : A)
| Exc (e : pyexn)
| OutOfFuel.
Arguments Val {A} a.
Arguments Exc {A} e.
Arguments OutOfFuel {A}.

Definition M (A : Type) : Type := world -> res A * world.

Definition ret {A} (a : A) : M A := fun w => (Val a, w).

Definition bind {A B} (m : M A) (k : A -> M B) : M B :=
  fun w =>
    match m w with
    | (Val a, w') => k a w'
    | (Exc e, w') => (Exc e, w')
    | (OutOfFuel, w') => (OutOfFuel, w')
    end.

Definition raise {A} (e : pyexn) : M A := fun w => (Exc e, w).

Definition out_of_fuel {A} : M A := fun w => (OutOfFuel, w).

Notation "x <- m ;; k" := (bind m (fun x => k))
  (at level 61, m at next level, right associativity).
Notation "m ;;; k" := (bind m (fun _ => k))
  (at level 61, right associativity).

(** [try: m except exceptions as e: h e].  The handler runs outside the
    protected region: what it raises is not caught here. *)
Definition try_except {A} (m : M A) (exceptions : EXCEPTIONS)
    (h : pyexn -> M A) : M A :=
  fun w =>
    match m w with
    | (Exc e, w') =>
        if isinstance e exceptions then h e w' else (Exc e, w')
    | r => r
    end.

Definition get_tries : M Z := fun w => (Val (_tries w), w).
Definition get_delay : M Z := fun w => (Val (_delay w), w).
Definition set_tries (t : Z) : M unit :=
  fun w => (Val tt, mk_world t (_delay w) (events w)).
Definition set_delay (d : Z) : M unit :=
  fun w => (Val tt, mk_world (_tries w) d (events w)).
Definition emit (ev : event) : M unit :=
  fun w => (Val tt, mk_world (_tries w) (_delay w) (ev :: events w)).
Definition history : M trace := fun w => (Val (events w), w).

(** One invocation of the operation. *)
Definition invoke (f : operation) : M value :=
  tr <- history ;;
  emit (EvCall (f tr)) ;;;
  match f tr with
  | Returns v => ret v
  | Raises e => raise e
  end.

(** [logger.warning("%s, retrying in %s seconds...", e, d)]. *)
Definition warning (lg : Logger) (e : pyexn) (d : Z) : M unit :=
  tr <- history ;;
  emit (EvWarn e d) ;;;
  match lg tr e d with
  | None => ret tt
  | Some err => raise err
  end.

(** [time.sleep(secs)]: CPython raises [ValueError] ("sleep length must be
    non-negative") for a negative argument and blocks the thread otherwise. *)
Definition sleep_error : pyexn := mk_exn ValueError 0.

Definition time_sleep (secs : Z) : M unit :=
  if secs <? 0 then raise sleep_error else emit (EvWait Blocking secs).

(** [random.uniform(lo, hi)]. *)
Definition random_uniform (rng : generator) (lo hi : Z) : M Z :=
  tr <- history ;;
  emit (EvUniform lo hi (rng tr lo hi)) ;;;
  ret (rng tr lo hi).

(** ** The executor *)

(** [while _tries: body].  A pass of the body either returns from the
    function ([Some v]) or reaches its end ([None]) and the test is made
    again.  [fuel] bounds the number of passes; running out of it is the
    outcome [OutOfFuel], never a value. *)
Fixpoint while_tries (fuel : nat) (body : M (option value)) : M value :=
  t <- get_tries ;;
  if t =? 0 then ret VNone
  else
    match fuel with
    | O => out_of_fuel
    | S fuel' =>
        r <- body ;;
        match r with
        | Some v => ret v
        | None => while_tries fuel' body
        end
    end.

(** Lines 42-61: one pass of the loop of [__retry_internal_sync]. *)
Definition attempt_sync (rng : generator) (f : operation)
    (exceptions : EXCEPTIONS) (max_delay : option Z) (backoff : Z)
    (jitter : jitter_t) (logger : option Logger) : M (option value) :=
  try_except
    (v <- invoke f ;; ret (Some v))
    exceptions
    (fun e =>
       t <- get_tries ;;
       set_tries (t - 1) ;;;
       t <- get_tries ;;
       if t =? 0 then raise e
       else
         match logger with
         | Some lg => d <- get_delay ;; warning lg e d
         | None => ret tt
         end ;;;
         d <- get_delay ;;
         time_sleep d ;;;
         d <- get_delay ;;
         set_delay (d * backoff) ;;;
         match jitter with
         | JRange lo hi =>
             x <- random_uniform rng lo hi ;;
             d <- get_delay ;;
             set_delay (d + x)
         | JFixed j =>
             d <- get_delay ;;
             set_delay (d + j)
         end ;;;
         match max_delay with
         | Some m => d <- get_delay ;; set_delay (Z.min d m)
         | None => ret tt
         end ;;;
         ret None).

(** Lines 15-61. *)
Definition __retry_internal_sync (rng : generator) (fuel : nat)
    (f : operation) (exceptions : EXCEPTIONS) (tries delay : Z)
    (max_delay : option Z) (backoff : Z) (jitter : jitter_t)
    (logger : option Logger) : M value :=
  set_tries tries ;;;
  set_delay delay ;;;
  while_tries fuel
    (attempt_sync rng f exceptions max_delay backoff jitter logger).

(** Lines 91-110: one pass of the loop of [__retry_internal_async].  The
    operation is awaited; the wait is the same [time.sleep] call as in the
    synchronous loop. *)
Definition attempt_async (rng : generator) (f : operation)
    (exceptions : EXCEPTIONS) (max_delay : option Z) (backoff : Z)
    (jitter : jitter_t) (logger : option Logger) : M (option value) :=
  try_except
    (v <- invoke f ;; ret (Some v))
    exceptions
    (fun e =>
       t <- get_tries ;;
       set_tries (t - 1) ;;;
       t <- get_tries ;;
       if t =? 0 then raise e
       else
         match logger with
         | Some lg => d <- get_delay ;; warning lg e d
         | None => ret tt
         end ;;;
         d <- get_delay ;;
         time_sleep d ;;;
         d <- get_delay ;;
         set_delay (d * backoff) ;;;
         match jitter with
         | JRange lo hi =>
             x <- random_uniform rng lo hi ;;
             d <- get_delay ;;
             set_delay (d + x)
         | JFixed j =>
             d <- get_delay ;;
             set_delay (d + j)
         end ;;;
         match max_delay with
         | Some m => d <- get_delay ;; set_delay (Z.min d m)
         | None => ret tt
         end ;;;
         ret None).

(** Lines 64-110. *)
Definition __retry_internal_async (rng : generator) (fuel : nat)
    (f : operation) (exceptions : EXCEPTIONS) (tries delay : Z)
    (max_delay : option Z) (backoff : Z) (jitter : jitter_t)
    (logger : option Logger) : M value :=
  set_tries tries ;;;
  set_delay delay ;;;
  while_tries fuel
    (attempt_async rng f exceptions max_delay backoff jitter logger).

(** ** The public functions *)

(** A Python function called with positional and named arguments. *)
Definition pyfun := list value -> list (string * value) -> operation.

(** [functools.partial(f, *args, **kwargs)]. *)
Definition partial (f : pyfun) (args : list value)
    (kwargs : list (string * value)) : operation :=
  f args kwargs.

(** [x if x else list()] and [x if x else dict()] for an argument that
    defaults to [None]. *)
Definition or_empty {A} (x : option (list A)) : list A :=
  match x with
  | Some (a :: l) => a :: l
  | _ => []
  end.

(** Lines 183-223. *)
Definition retry_call_sync (rng : generator) (fuel : nat) (f : pyfun)
    (fargs : option (list value)) (fkwargs : option (list (string * value)))
    (exceptions : EXCEPTIONS) (tries delay : Z) (max_delay : option Z)
    (backoff : Z) (jitter : jitter_t) (logger : option Logger) : M value :=
  let args := or_empty fargs in
  let kwargs := or_empty fkwargs in
  __retry_internal_sync rng fuel (partial f args kwargs)
    exceptions tries delay max_delay backoff jitter logger.

(** Lines 226-266. *)
Definition retry_call_async (rng : generator) (fuel : nat) (f : pyfun)
    (fargs : option (list value)) (fkwargs : option (list (string * value)))
    (exceptions : EXCEPTIONS) (tries delay : Z) (max_delay : option Z)
    (backoff : Z) (jitter : jitter_t) (logger : option Logger) : M value :=
  let args := or_empty fargs in
  let kwargs := or_empty fkwargs in
  __retry_internal_async rng fuel (partial f args kwargs)
    exceptions tries delay max_delay backoff jitter logger.

(** What [retry(...)] returns: a decorator.  Applied to a function it gives
    a function of the same arguments (and, here, of the fuel of the run). *)
Definition decorated := nat -> list value -> list (string * value) -> M value.
Definition decorator := pyfun -> decorated.

(** Lines 116-180.  The body of [retry] defines one of two closures and
    returns it. *)
Definition retry (rng : generator) (is_async : bool)
    (exceptions : EXCEPTIONS) (tries delay : Z) (max_delay : option Z)
    (backoff : Z) (jitter : jitter_t) (logger : option Logger)
    : M decorator :=
  if is_async then
    let retry_decorator_async : decorator :=
      fun f fuel fargs fkwargs =>
        let args := or_empty (Some fargs) in
        let kwargs := or_empty (Some fkwargs) in
        __retry_internal_async rng fuel (partial f args kwargs)
          exceptions tries delay max_delay backoff jitter logger in
    ret retry_decorator_async
  else
    let retry_decorator_sync : decorator :=
      fun f fuel fargs fkwargs =>
        let args := or_empty (Some fargs) in
        let kwargs := or_empty (Some fkwargs) in
        __retry_internal_sync rng fuel (partial f args kwargs)
          exceptions tries delay max_delay backoff jitter logger in
    ret retry_decorator_sync.

(** The executor in either execution mode. *)
Definition execute (is_async : bool) :=
  if is_async then __retry_internal_async else __retry_internal_sync.

(** ** Observations on a trace *)

(** Number of invocations of the operation. *)
Fixpoint calls (tr : trace) : nat :=
  match tr with
  | [] => O
  | EvCall _ :: tr' => S (calls tr')
  | _ :: tr' => calls tr'
  end.

(** Number of calls of [logger.warning]. *)
Fixpoint warnings (tr : trace) : nat :=
  match tr with
  | [] => O
  | EvWarn _ _ :: tr' => S (warnings tr')
  | _ :: tr' => warnings tr'
  end.

(** The waits, oldest first. *)
Fixpoint waits (tr : trace) : list Z :=
  match tr with
  | [] => []
  | EvWait _ d :: tr' => waits tr' ++ [d]
  | _ :: tr' => waits tr'
  end.

(** Total accumulated wait. *)
Fixpoint total_wait (tr : trace) : Z :=
  match tr with
  | [] => 0
  | EvWait _ d :: tr' => total_wait tr' + d
  | _ :: tr' => total_wait tr'
  end.

(** Every wait of the trace suspends the task instead of blocking the
    thread. *)
Fixpoint all_suspending (tr : trace) : bool :=
  match tr with
  | [] => true
  | EvWait Blocking _ :: _ => false
  | _ :: tr' => all_suspending tr'
  end.

(** ** Vocabulary of the statements *)

(** One pass of the loop in either execution mode. *)
Definition attempt (is_async : bool) :=
  if is_async then attempt_async else attempt_sync.

(** The operation fails on every invocation, with a failure the [except]
    clause catches. *)
Definition always_fails (f : operation) (exceptions : EXCEPTIONS) : Prop :=
  forall tr, exists e, f tr = Raises e /\ isinstance e exceptions = true.

(** The operation fails, with a caught failure, on each of its first
    [k - 1] invocations and returns [v] on the [k]-th. *)
Definition fails_then_returns (f : operation) (exceptions : EXCEPTIONS)
    (k : nat) (v : value) : Prop :=
  (forall tr, (S (calls tr) < k)%nat ->
     exists e, f tr = Raises e /\ isinstance e exceptions = true) /\
  (forall tr, S (calls tr) = k -> f tr = Returns v).

(** No logger, or a logger whose [warning] never raises. *)
Definition quiet (logger : option Logger) : Prop :=
  forall lg, logger = Some lg -> forall tr e d, lg tr e d = None.

(** The ranges of the numeric fields of a policy: no negative duration, no
    negative factor, no inverted jitter range. *)
Definition valid_delays (delay : Z) (max_delay : option Z) (backoff : Z)
    (jitter : jitter_t) : Prop :=
  0 <= delay /\ 0 <= backoff /\
  match max_delay with Some m => 0 <= m | None => True end /\
  match jitter with JFixed j => 0 <= j | JRange lo hi => 0 <= lo <= hi end.

(** [random.uniform(lo, hi)] lies between its bounds. *)
Definition sound (rng : generator) : Prop :=
  forall tr lo hi, lo <= hi -> lo <= rng tr lo hi <= hi.

(** Every jitter added to the delay is non-negative. *)
Definition nonneg_jitter (rng : generator) (jitter : jitter_t) : Prop :=
  match jitter with
  | JFixed j => 0 <= j
  | JRange lo hi => forall tr, 0 <= rng tr lo hi
  end.

(** [min(d, max_delay)] when [max_delay] is set. *)
Definition clamp (max_delay : option Z) (d : Z) : Z :=
  match max_delay with
  | Some m => Z.min d m
  | None => d
  end.

(** The failure carried by an outcome. *)
Definition failure_of (r : outcome) : pyexn :=
  match r with
  | Raises e => e
  | Returns _ => mk_exn BaseException 0
  end.

(** The world a pass leaves behind when the invocation failed, the failure
    was caught, attempts remain and neither the logger nor the wait raised:
    the pass is then retried. *)
Definition after_retry (rng : generator) (f : operation)
    (max_delay : option Z) (backoff : Z) (jitter : jitter_t)
    (logger : option Logger) (w : world) : world :=
  let r := f (events w) in
  let d := _delay w in
  let tr1 := EvCall r :: events w in
  let tr2 :=
    match logger with
    | Some _ => EvWarn (failure_of r) d :: tr1
    | None => tr1
    end in
  let tr3 := EvWait Blocking d :: tr2 in
  match jitter with
  | JRange lo hi =>
      let x := rng tr3 lo hi in
      mk_world (_tries w - 1) (clamp max_delay (d * backoff + x))
        (EvUniform lo hi x :: tr3)
  | JFixed j =>
      mk_world (_tries w - 1) (clamp max_delay (d * backoff + j)) tr3
  end.

(** [n] retried passes in a row. *)
Fixpoint retried (n : nat) (rng : generator) (f : operation)
    (max_delay : option Z) (backoff : Z) (jitter : jitter_t)
    (logger : option Logger) (w : world) : world :=
  match n with
  | O => w
  | S n' =>
      retried n' rng f max_delay backoff jitter logger
        (after_retry rng f max_delay backoff jitter logger w)
  end.

(** The total wait as the specification writes it: the sum of
    [delay * backoff ^ i] for [i] in [0 .. tries - 2]. *)
Definition geometric_wait (delay backoff : Z) (tries : nat) : Z :=
  fold_right Z.add 0
    (map (fun i => delay * backoff ^ Z.of_nat i) (seq 0 (tries - 1))).

(** The trace once the logger, if there is one, has been told of the
    failure [e]. *)
Definition told (logger : option Logger) (e : pyexn) (w : world) : trace :=
  match logger with
  | Some _ => EvWarn e (_delay w) :: EvCall (Raises e) :: events w
  | None => EvCall (Raises e) :: events w
  end.

(** The logger, if there is one, returns when told of the failure [e] of
    the invocation made in [w]. *)
Definition logger_returns (logger : option Logger) (e : pyexn) (w : world)
    : Prop :=
  match logger with
  | Some lg => lg (EvCall (Raises e) :: events w) e (_delay w) = None
  | None => True
  end.

(** ** Sample collaborators *)

Definition fresh : world := mk_world 0 0 [].

(** A generator that always answers the lower bound. *)
Definition low_rng : generator := fun _ lo _ => lo.

(** [1 / 0] on every invocation; the tag counts the invocations. *)
Definition always_zero_division : operation :=
  fun tr => Raises (mk_exn ZeroDivisionError (calls tr)).

(** Raises [ValueError] until the [target]-th invocation, which returns
    [target]. *)
Definition succeeds_on (target : nat) : operation :=
  fun tr =>
    if Nat.eqb (S (calls tr)) target then Returns (VInt (Z.of_nat target))
    else Raises (mk_exn ValueError (calls tr)).

(** A logger whose [warning] raises [RuntimeError]. *)
Definition broken_logger : Logger :=
  fun _ _ _ => Some (mk_exn RuntimeError 7).

(** ** Sample runs *)

(** [max_delay] equal to the delay, a backoff of [0], three tries. *)
Definition run_backoff_zero : res value * world :=
  execute false low_rng 3 always_zero_division (OneClass Exception) 3 1
    (Some 1) 0 (JFixed 0) None fresh.

(** An initial delay of [5] above a [max_delay] of [2], three tries. *)
Definition run_delay_above_cap : res value * world :=
  execute false low_rng 3 always_zero_division (OneClass Exception) 3 5
    (Some 2) 2 (JFixed 0) None fresh.

(** [await retry_call_async(f, tries=2, delay=1, logger=None)] with an [f]
    that divides by zero. *)
Definition run_async_two_tries : res value * world :=
  retry_call_async low_rng 2 (fun _ _ => always_zero_division) None None
    (OneClass Exception) 2 1 None 1 (JFixed 0) None fresh.

(** ** One pass of the loop as a relation *)

(** The six ways a pass can go, read off lines 42-61 in order: the
    invocation returns; it raises what the [except] clause does not catch;
    it raises a caught failure on the last try; the logger raises; the wait
    is refused; the pass is retried. *)
Inductive pass (rng : generator) (f : operation) (exceptions : EXCEPTIONS)
    (max_delay : option Z) (backoff : Z) (jitter : jitter_t)
    (logger : option Logger) (w : world)
    : res (option value) -> world -> Prop :=
| pass_returns v :
    f (events w) = Returns v ->
    pass rng f exceptions max_delay backoff jitter logger w
      (Val (Some v))
      (mk_world (_tries w) (_delay w) (EvCall (Returns v) :: events w))
| pass_uncaught e :
    f (events w) = Raises e ->
    isinstance e exceptions = false ->
    pass rng f exceptions max_delay backoff jitter logger w
      (Exc e)
      (mk_world (_tries w) (_delay w) (EvCall (Raises e) :: events w))
| pass_exhausted e :
    f (events w) = Raises e ->
    isinstance e exceptions = true ->
    _tries w - 1 = 0 ->
    pass rng f exceptions max_delay backoff jitter logger w
      (Exc e)
      (mk_world 0 (_delay w) (EvCall (Raises e) :: events w))
| pass_logger_raised lg e err :
    f (events w) = Raises e ->
    isinstance e exceptions = true ->
    _tries w - 1 <> 0 ->
    logger = Some lg ->
    lg (EvCall (Raises e) :: events w) e (_delay w) = Some err ->
    pass rng f exceptions max_delay backoff jitter logger w
      (Exc err)
      (mk_world (_tries w - 1) (_delay w)
         (EvWarn e (_delay w) :: EvCall (Raises e) :: events w))
| pass_wait_refused e :
    f (events w) = Raises e ->
    isinstance e exceptions = true ->
    _tries w - 1 <> 0 ->
    logger_returns logger e w ->
    _delay w < 0 ->
    pass rng f exceptions max_delay backoff jitter logger w
      (Exc sleep_error)
      (mk_world (_tries w - 1) (_delay w) (told logger e w))
| pass_retried e :
    f (events w) = Raises e ->
    isinstance e exceptions = true ->
    _tries w - 1 <> 0 ->
    logger_returns logger e w ->
    0 <= _delay w ->
    pass rng f exceptions max_delay backoff jitter logger w
      (Val None)
      (after_retry rng f max_delay backoff jitter logger w).

(** ** Further observations on a trace *)

(** The delays announced to the logger, oldest first. *)
Fixpoint warned (tr : trace) : list Z :=
  match tr with
  | [] => []
  | EvWarn _ d :: tr' => warned tr' ++ [d]
  | _ :: tr' => warned tr'
  end.

(** The bounds of the calls of [random.uniform], oldest first. *)
Fixpoint draws (tr : trace) : list (Z * Z) :=
  match tr with
  | [] => []
  | EvUniform lo hi _ :: tr' => draws tr' ++ [(lo, hi)]
  | _ :: tr' => draws tr'
  end.

(** The run ended: it did not stop for lack of fuel. *)
Definition ended {A} (r : res A) : bool :=
  match r with
  | OutOfFuel => false
  | _ => true
  end.

(** The operation fails, with a caught failure, on each of its first
    [k - 1] invocations and raises [e], which is not caught, on the
    [k]-th. *)
Definition fails_then_raises (f : operation) (exceptions : EXCEPTIONS)
    (k : nat) (e : pyexn) : Prop :=
  (forall tr, (S (calls tr) < k)%nat ->
     exists e', f tr = Raises e' /\ isinstance e' exceptions = true) /\
  (forall tr, S (calls tr) = k -> f tr = Raises e) /\
  isinstance e exceptions = false.

(** The [n]-th wait with a fixed jitter [j] and a backoff of [1]. *)
Definition arithmetic_waits (delay j : Z) (n : nat) : list Z :=
  map (fun i => delay + j * Z.of_nat i) (seq 0 n).

(** Lines 53-61 with a fixed jitter: the delay after the next wait. *)
Definition next_delay (max_delay : option Z) (backoff j d : Z) : Z :=
  clamp max_delay (d * backoff + j).

(** The first [n] waits of a schedule that starts with a delay of [d]. *)
Fixpoint schedule (max_delay : option Z) (backoff j d : Z) (n : nat)
    : list Z :=
  match n with
  | O => []
  | S n' =>
      d :: schedule max_delay backoff j (next_delay max_delay backoff j d) n'
  end.

(** Each element of the list is obtained from the one before it by an
    update whose jitter lies between [lo] and [hi]. *)
Fixpoint jittered (max_delay : option Z) (backoff lo hi : Z) (l : list Z)
    : Prop :=
  match l with
  | x :: (y :: _) as l' =>
      next_delay max_delay backoff lo x <= y <=
      next_delay max_delay backoff hi x /\
      jittered max_delay backoff lo hi l'
  | _ => True
  end.

(** ** Further sample collaborators *)

(** [side_effect = [RuntimeError, RuntimeError, 3]]. *)
Definition fails_twice_then_three : operation :=
  fun tr =>
    if Nat.eqb (S (calls tr)) 3 then Returns (VInt 3)
    else Raises (mk_exn RuntimeError (calls tr)).

(** Two [ValueError]s, then [KeyboardInterrupt]. *)
Definition interrupted_on_third : operation :=
  fun tr =>
    if Nat.eqb (S (calls tr)) 3 then Raises (mk_exn KeyboardInterrupt 0)
    else Raises (mk_exn ValueError (calls tr)).

(** The function of the tests: returns its argument when it is negative
    and raises [RuntimeError] otherwise; [value] defaults to [0]. *)
Definition negative_or_raise : pyfun :=
  fun args kwargs _ =>
    let value :=
      match args, kwargs with
      | VInt z :: _, _ => z
      | [], (_, VInt z) :: _ => z
      | _, _ => 0
      end in
    if value <? 0 then Returns (VInt value)
    else Raises (mk_exn RuntimeError 0).

(** A logger that raises from its second call on. *)
Definition logger_breaks_later : Logger :=
  fun tr _ _ =>
    match warnings tr with
    | O => None
    | S _ => Some (mk_exn TypeError 1)
    end.

(** A generator that answers the upper bound. *)
Definition high_rng : generator := fun _ _ hi => hi.

(** Range jitter, a logger, a cap: four tries that all fail. *)
Definition run_range_jitter : res value * world :=
  execute true high_rng 4 always_zero_division (OneClass ArithmeticError) 4
    1 (Some 6) 2 (JRange 1 3) (Some logging_logger) fresh.

(** The logger breaks on its second call. *)
Definition run_logger_breaks : res value * world :=
  execute false low_rng 5 always_zero_division (OneClass Exception) 5 1 None
    2 (JFixed 0) (Some logger_breaks_later) fresh.

(** ** The loop over any numbers and any [time.sleep]

    Python runs lines 15-110 on whatever numbers it is given.  The module
    below is the same transcription as above with the numbers and the
    behaviour of [time.sleep] left open, so that the loop can be run on
    binary64 floats, the declared type of [delay], [backoff], [jitter] and
    [max_delay]. *)

Module Generic.

(** A kind of number with the three operations the loop applies to a delay
    ([*=], [+=] and the [<] behind [min]) and what [time.sleep] does with a
    duration: [None] when it returns, [Some err] when it raises. *)
Record numeric : Type := mk_numeric {
  number : Type;
  mul : number -> number -> number;
  add : number -> number -> number;
  ltb : number -> number -> bool;
  refuses : number -> option pyexn
}.

Section Loop.

Variable N : numeric.

Local Abbreviation num := (number N).

Inductive event : Type :=
| EvCall (r : outcome)
| EvWarn (e : pyexn) (d : num)
| EvWait (k : wait_kind) (d : num)
| EvUniform (lo hi : num) (x : num).

Definition trace := list event.
Definition operation := trace -> outcome.
Definition Logger := trace -> pyexn -> num -> option pyexn.
Definition generator := trace -> num -> num -> num.

Inductive jitter_t : Type :=
| JFixed (j : num)
| JRange (lo hi : num).

Record world : Type := mk_world {
  _tries : Z;
  _delay : num;
  events : trace
}.

Definition M (A : Type) : Type := world -> res A * world.

Definition ret {A} (a : A) : M A := fun w => (Val a, w).

Definition bind {A B} (m : M A) (k : A -> M B) : M B :=
  fun w =>
    match m w with
    | (Val a, w') => k a w'
    | (Exc e, w') => (Exc e, w')
    | (OutOfFuel, w') => (OutOfFuel, w')
    end.

Definition raise {A} (e : pyexn) : M A := fun w => (Exc e, w).

Definition out_of_fuel {A} : M A := fun w => (OutOfFuel, w).

Local Notation "x <~ m ;; k" := (bind m (fun x => k))
  (at level 61, m at next level, right associativity).
Local Notation "m ;;~ k" := (bind m (fun _ => k))
  (at level 61, right associativity).

Definition try_except {A} (m : M A) (exceptions : EXCEPTIONS)
    (h : pyexn -> M A) : M A :=
  fun w =>
    match m w with
    | (Exc e, w') =>
        if isinstance e exceptions then h e w' else (Exc e, w')
    | r => r
    end.

Definition get_tries : M Z := fun w => (Val (_tries w), w).
Definition get_delay : M num := fun w => (Val (_delay w), w).
Definition set_tries (t : Z) : M unit :=
  fun w => (Val tt, mk_world t (_delay w) (events w)).
Definition set_delay (d : num) : M unit :=
  fun w => (Val tt, mk_world (_tries w) d (events w)).
Definition emit (ev : event) : M unit :=
  fun w => (Val tt, mk_world (_tries w) (_delay w) (ev :: events w)).
Definition history : M trace := fun w => (Val (events w), w).

Definition invoke (f : operation) : M value :=
  tr <~ history ;;
  emit (EvCall (f tr)) ;;~
  match f tr with
  | Returns v => ret v
  | Raises e => raise e
  end.

Definition warning (lg : Logger) (e : pyexn) (d : num) : M unit :=
  tr <~ history ;;
  emit (EvWarn e d) ;;~
  match lg tr e d with
  | None => ret tt
  | Some err => raise err
  end.

(** [time.sleep(secs)]: raises what the platform raises for [secs], or
    blocks the thread for that long. *)
Definition time_sleep (secs : num) : M unit :=
  match refuses N secs with
  | Some err => raise err
  | None => emit (EvWait Blocking secs)
  end.

Definition random_uniform (rng : generator) (lo hi : num) : M num :=
  tr <~ history ;;
  emit (EvUniform lo hi (rng tr lo hi)) ;;~
  ret (rng tr lo hi).

(** The built-in [min(a, b)]: [b] when [b < a], else [a]. *)
Definition py_min (a b : num) : num := if ltb N b a then b else a.

Fixpoint while_tries (fuel : nat) (body : M (option value)) : M value :=
  t <~ get_tries ;;
  if t =? 0 then ret VNone
  else
    match fuel with
    | O => out_of_fuel
    | S fuel' =>
        r <~ body ;;
        match r with
        | Some v => ret v
        | None => while_tries fuel' body
        end
    end.

(** Lines 42-61 and, with [await f()] for [f()], lines 91-110. *)
Definition attempt (rng : generator) (f : operation)
    (exceptions : EXCEPTIONS) (max_delay : option num) (backoff : num)
    (jitter : jitter_t) (logger : option Logger) : M (option value) :=
  try_except
    (v <~ invoke f ;; ret (Some v))
    exceptions
    (fun e =>
       t <~ get_tries ;;
       set_tries (t - 1) ;;~
       t <~ get_tries ;;
       if t =? 0 then raise e
       else
         match logger with
         | Some lg => d <~ get_delay ;; warning lg e d
         | None => ret tt
         end ;;~
         d <~ get_delay ;;
         time_sleep d ;;~
         d <~ get_delay ;;
         set_delay (mul N d backoff) ;;~
         match jitter with
         | JRange lo hi =>
             x <~ random_uniform rng lo hi ;;
             d <~ get_delay ;;
             set_delay (add N d x)
         | JFixed j =>
             d <~ get_delay ;;
             set_delay (add N d j)
         end ;;~
         match max_delay with
         | Some m => d <~ get_delay ;; set_delay (py_min d m)
         | None => ret tt
         end ;;~
         ret None).

(** Lines 15-61. *)
Definition __retry_internal_sync (rng : generator) (fuel : nat)
    (f : operation) (exceptions : EXCEPTIONS) (tries : Z) (delay : num)
    (max_delay : option num) (backoff : num) (jitter : jitter_t)
    (logger : option Logger) : M value :=
  set_tries tries ;;~
  set_delay delay ;;~
  while_tries fuel
    (attempt rng f exceptions max_delay backoff jitter logger).

(** Lines 64-110. *)
Definition __retry_internal_async (rng : generator) (fuel : nat)
    (f : operation) (exceptions : EXCEPTIONS) (tries : Z) (delay : num)
    (max_delay : option num) (backoff : num) (jitter : jitter_t)
    (logger : option Logger) : M value :=
  set_tries tries ;;~
  set_delay delay ;;~
  while_tries fuel
    (attempt rng f exceptions max_delay backoff jitter logger).

Definition execute (is_async : bool) :=
  if is_async then __retry_internal_async else __retry_internal_sync.

(** Number of invocations of the operation. *)
Fixpoint calls (tr : trace) : nat :=
  match tr with
  | [] => O
  | EvCall _ :: tr' => S (calls tr')
  | _ :: tr' => calls tr'
  end.

(** The waits, oldest first. *)
Fixpoint waits (tr : trace) : list num :=
  match tr with
  | [] => []
  | EvWait _ d :: tr' => waits tr' ++ [d]
  | _ :: tr' => waits tr'
  end.


End Loop.

End Generic.

(** ** The integers as an instance

    The loop over [Z] with which this file starts is the generic loop run
    on the integers, with a [time.sleep] that refuses negative durations.
    The two differ in the type of their events only; [up] and [down]
    translate between them. *)

Module Integers.

Definition refuses_negative (secs : Z) : option pyexn :=
  if secs <? 0 then Some sleep_error else None.

Definition integers : Generic.numeric :=
  Generic.mk_numeric Z Z.mul Z.add Z.ltb refuses_negative.

Definition up (ev : event) : Generic.event integers :=
  match ev with
  | EvCall r => Generic.EvCall integers r
  | EvWarn e d => Generic.EvWarn integers e d
  | EvWait k d => Generic.EvWait integers k d
  | EvUniform lo hi x => Generic.EvUniform integers lo hi x
  end.

Definition down (ev : Generic.event integers) : event :=
  match ev with
  | Generic.EvCall _ r => EvCall r
  | Generic.EvWarn _ e d => EvWarn e d
  | Generic.EvWait _ k d => EvWait k d
  | Generic.EvUniform _ lo hi x => EvUniform lo hi x
  end.

Definition up_world (w : world) : Generic.world integers :=
  Generic.mk_world integers (_tries w) (_delay w) (map up (events w)).

Definition up_jitter (jitter : jitter_t) : Generic.jitter_t integers :=
  match jitter with
  | JFixed j => Generic.JFixed integers j
  | JRange lo hi => Generic.JRange integers lo hi
  end.

Definition up_operation (f : operation) : Generic.operation integers :=
  fun tr => f (map down tr).

Definition up_logger (lg : Logger) : Generic.Logger integers :=
  fun tr e d => lg (map down tr) e d.

Definition up_generator (rng : generator) : Generic.generator integers :=
  fun tr lo hi => rng (map down tr) lo hi.

End Integers.

(** ** Binary64 floats *)

Module Binary64.

Import PrimFloat.

#[local] Set Warnings "-inexact-float".

(** [time.sleep] on a float, as CPython converts it to nanoseconds: NaN and
    negative durations raise [ValueError], a duration beyond 2^63
    nanoseconds raises [OverflowError]. *)
Definition not_a_number : pyexn := mk_exn ValueError 1.
Definition too_large : pyexn := mk_exn OverflowError 0.

Definition sleep_refuses (secs : float) : option pyexn :=
  if is_nan secs then Some not_a_number
  else
    let ns := (secs * 1e9)%float in
    if (ns <? -9223372036854775808)%float
       || (9223372036854775808 <? ns)%float
    then Some too_large
    else if (secs <? 0)%float then Some sleep_error
    else None.

Definition floats : Generic.numeric :=
  Generic.mk_numeric float PrimFloat.mul PrimFloat.add PrimFloat.ltb
    sleep_refuses.

Definition fresh : Generic.world floats := Generic.mk_world floats 0 0%float [].

Definition low_rng : Generic.generator floats := fun _ lo _ => lo.

(** [1 / 0] on every invocation. *)
Definition always_zero_division : Generic.operation floats :=
  fun tr => Raises (mk_exn ZeroDivisionError (Generic.calls floats tr)).

(** [sum(waits)], added up from [0] in the order of the waits. *)
Definition total (l : list float) : float :=
  fold_left PrimFloat.add l 0%float.

(** [b ** i] for a small integer [i]. *)
Fixpoint power (b : float) (i : nat) : float :=
  match i with
  | O => 1%float
  | S i' => (power b i' * b)%float
  end.

(** The total wait as the specification and the test write it:
    [sum(delay * backoff ** i for i in range(tries - 1))]. *)
Definition geometric_wait (delay backoff : float) (tries : nat) : float :=
  total (map (fun i => (delay * power backoff i)%float) (seq 0 (tries - 1))).

(** [tries=4, delay=0.1, backoff=3], no jitter, no [max_delay]. *)
Definition run_tenth_tripled : res value * Generic.world floats :=
  Generic.execute floats false low_rng 4 always_zero_division
    (OneClass Exception) 4 0.1%float None 3%float
    (Generic.JFixed floats 0%float) None fresh.

(** [tries=10, jitter=0.1], the defaults for the rest. *)
Definition run_jitter_tenth : res value * Generic.world floats :=
  Generic.execute floats true low_rng 10 always_zero_division
    (OneClass Exception) 10 0%float None 1%float
    (Generic.JFixed floats 0.1%float) None fresh.


End Binary64.

(** ** The monad and the loop, one step at a time *)

Lemma while_tries_done fuel body w :
  _tries w = 0 -> while_tries fuel body w = (Val VNone, w).
Proof.
  intros H.
  destruct fuel; cbn [while_tries]; unfold bind, get_tries; rewrite H;
    reflexivity.
Qed.

Lemma while_tries_step fuel body w :
  _tries w <> 0 ->
  while_tries (S fuel) body w =
  match body w with
  | (Val (Some v), w') => (Val v, w')
  | (Val None, w') => while_tries fuel body w'
  | (Exc e, w') => (Exc e, w')
  | (OutOfFuel, w') => (OutOfFuel, w')
  end.
Proof.
  intros H. apply Z.eqb_neq in H.
  cbn [while_tries]. unfold bind, get_tries. rewrite H.
  destruct (body w) as [[[v|]|e|] w']; reflexivity.
Qed.

Lemma attempt_async_sync : attempt_async = attempt_sync.
Proof. reflexivity. Qed.

Lemma retry_internal_async_sync :
  __retry_internal_async = __retry_internal_sync.
Proof. reflexivity. Qed.

Lemma execute_sync is_async : execute is_async = __retry_internal_sync.
Proof. destruct is_async; reflexivity. Qed.

Lemma attempt_mode is_async : attempt is_async = attempt_sync.
Proof. destruct is_async; reflexivity. Qed.

Lemma execute_unfold is_async rng fuel f exceptions tries delay max_delay
    backoff jitter logger w :
  execute is_async rng fuel f exceptions tries delay max_delay backoff
    jitter logger w =
  while_tries fuel
    (attempt_sync rng f exceptions max_delay backoff jitter logger)
    (mk_world tries delay (events w)).
Proof. rewrite execute_sync. reflexivity. Qed.

(** The primitives of the monad, unfolded. *)
Ltac crunch := cbn [_tries _delay events fst snd failure_of told].

Ltac step_monad :=
  unfold attempt_sync, try_except, invoke, warning, time_sleep,
    random_uniform, history, emit, get_tries, get_delay, set_tries,
    set_delay, raise, ret, bind;
  crunch.

Lemma attempt_returns rng f exceptions max_delay backoff jitter logger w v :
  f (events w) = Returns v ->
  attempt_sync rng f exceptions max_delay backoff jitter logger w =
  (Val (Some v),
   mk_world (_tries w) (_delay w) (EvCall (Returns v) :: events w)).
Proof. intros Hf. step_monad. rewrite Hf. reflexivity. Qed.

Lemma attempt_fatal rng f exceptions max_delay backoff jitter logger w e :
  f (events w) = Raises e ->
  isinstance e exceptions = false ->
  attempt_sync rng f exceptions max_delay backoff jitter logger w =
  (Exc e, mk_world (_tries w) (_delay w) (EvCall (Raises e) :: events w)).
Proof. intros Hf Hi. step_monad. rewrite Hf, Hi. reflexivity. Qed.

Lemma attempt_exhausted rng f exceptions max_delay backoff jitter logger w e :
  f (events w) = Raises e ->
  isinstance e exceptions = true ->
  _tries w - 1 = 0 ->
  attempt_sync rng f exceptions max_delay backoff jitter logger w =
  (Exc e, mk_world 0 (_delay w) (EvCall (Raises e) :: events w)).
Proof.
  intros Hf Hi Ht. step_monad. rewrite Hf, Hi. crunch. rewrite Ht.
  reflexivity.
Qed.

Lemma attempt_logger_raises rng f exceptions max_delay backoff jitter lg w
    e err :
  f (events w) = Raises e ->
  isinstance e exceptions = true ->
  _tries w - 1 <> 0 ->
  lg (EvCall (Raises e) :: events w) e (_delay w) = Some err ->
  attempt_sync rng f exceptions max_delay backoff jitter (Some lg) w =
  (Exc err,
   mk_world (_tries w - 1) (_delay w)
     (EvWarn e (_delay w) :: EvCall (Raises e) :: events w)).
Proof.
  intros Hf Hi Ht Hl. apply Z.eqb_neq in Ht.
  step_monad. rewrite Hf, Hi. crunch. rewrite Ht. crunch.
  rewrite Hl. reflexivity.
Qed.

Lemma quiet_logger_returns logger e w :
  quiet logger -> logger_returns logger e w.
Proof.
  intros Hq. destruct logger as [lg|]; cbn; [apply (Hq lg eq_refl) | exact I].
Qed.

Lemma attempt_sleep_raises rng f exceptions max_delay backoff jitter logger
    w e :
  f (events w) = Raises e ->
  isinstance e exceptions = true ->
  _tries w - 1 <> 0 ->
  logger_returns logger e w ->
  _delay w < 0 ->
  attempt_sync rng f exceptions max_delay backoff jitter logger w =
  (Exc sleep_error, mk_world (_tries w - 1) (_delay w) (told logger e w)).
Proof.
  intros Hf Hi Ht Hq Hd. apply Z.eqb_neq in Ht. apply Z.ltb_lt in Hd.
  step_monad. rewrite Hf, Hi. crunch. rewrite Ht. crunch.
  destruct logger as [lg|]; cbn [logger_returns] in Hq; crunch.
  - rewrite Hq. crunch. rewrite Hd. reflexivity.
  - rewrite Hd. reflexivity.
Qed.

Lemma attempt_retried rng f exceptions max_delay backoff jitter logger w e :
  f (events w) = Raises e ->
  isinstance e exceptions = true ->
  _tries w - 1 <> 0 ->
  logger_returns logger e w ->
  0 <= _delay w ->
  attempt_sync rng f exceptions max_delay backoff jitter logger w =
  (Val None, after_retry rng f max_delay backoff jitter logger w).
Proof.
  intros Hf Hi Ht Hq Hd. apply Z.eqb_neq in Ht.
  assert (Hd' : (_delay w <? 0) = false) by (apply Z.ltb_ge; exact Hd).
  unfold after_retry. step_monad. rewrite Hf, Hi. crunch. rewrite Ht.
  crunch.
  destruct logger as [lg|]; cbn [logger_returns] in Hq; crunch.
  - rewrite Hq. crunch. rewrite Hd'. crunch.
    destruct jitter, max_delay; reflexivity.
  - crunch. rewrite Hd'. crunch.
    destruct jitter, max_delay; reflexivity.
Qed.

(** ** Runs of retried passes *)

Section Retried.

Variable rng : generator.
Variable f : operation.
Variable max_delay : option Z.
Variable backoff : Z.
Variable jitter : jitter_t.
Variable logger : option Logger.

Local Abbreviation next := (after_retry rng f max_delay backoff jitter logger).
Local Abbreviation after n :=
  (retried n rng f max_delay backoff jitter logger).

Lemma after_retry_tries w : _tries (next w) = _tries w - 1.
Proof. unfold after_retry. destruct jitter; reflexivity. Qed.

Lemma after_retry_calls w :
  calls (events (next w)) = S (calls (events w)).
Proof. unfold after_retry. destruct jitter, logger; reflexivity. Qed.

Lemma after_retry_delay w :
  exists x,
    _delay (next w) = clamp max_delay (_delay w * backoff + x) /\
    match jitter with
    | JFixed j => x = j
    | JRange lo hi => exists tr, x = rng tr lo hi
    end.
Proof.
  unfold after_retry. destruct jitter; cbn [_delay].
  - eexists; split; reflexivity.
  - eexists; split; [reflexivity | eexists; reflexivity].
Qed.

Lemma after_retry_total_wait w :
  total_wait (events (next w)) = total_wait (events w) + _delay w.
Proof. unfold after_retry. destruct jitter, logger; reflexivity. Qed.

Lemma after_retry_waits w :
  waits (events (next w)) = waits (events w) ++ [_delay w].
Proof. unfold after_retry. destruct jitter, logger; reflexivity. Qed.

Lemma retried_tries n : forall w,
  _tries (after n w) = _tries w - Z.of_nat n.
Proof.
  induction n as [|n IH]; intros w.
  - cbn. lia.
  - cbn [retried]. rewrite IH, after_retry_tries. lia.
Qed.

Lemma retried_calls n : forall w,
  calls (events (after n w)) = (calls (events w) + n)%nat.
Proof.
  induction n as [|n IH]; intros w.
  - cbn. lia.
  - cbn [retried]. rewrite IH, after_retry_calls. lia.
Qed.

Lemma retried_snoc n : forall w, after (S n) w = next (after n w).
Proof.
  induction n as [|n IH]; intros w; [reflexivity|].
  cbn [retried] in IH |- *. rewrite <- IH. reflexivity.
Qed.

Lemma retried_delay_nonneg n : forall w,
  0 <= backoff ->
  match max_delay with Some m => 0 <= m | None => True end ->
  nonneg_jitter rng jitter ->
  0 <= _delay w ->
  0 <= _delay (after n w).
Proof.
  intros w Hb Hm Hj. revert w.
  induction n as [|n IH]; intros w Hd; [exact Hd|].
  cbn [retried]. apply IH.
  destruct (after_retry_delay w) as [x [-> Hx]].
  assert (0 <= x).
  { unfold nonneg_jitter in Hj. destruct jitter as [j|lo hi].
    - subst. exact Hj.
    - destruct Hx as [tr ->]. apply Hj. }
  unfold clamp. destruct max_delay; nia.
Qed.

(** [n] passes that fail with a caught failure while attempts remain, the
    logger and the wait being silent, take the loop from [w] to
    [after n w]. *)
Lemma while_retried exceptions :
  quiet logger ->
  forall n fuel w,
    (forall i, (i < n)%nat ->
       (exists e, f (events (after i w)) = Raises e /\
                  isinstance e exceptions = true) /\
       _tries (after i w) <> 0 /\
       _tries (after i w) - 1 <> 0 /\
       0 <= _delay (after i w)) ->
    while_tries (n + fuel)
      (attempt_sync rng f exceptions max_delay backoff jitter logger) w =
    while_tries fuel
      (attempt_sync rng f exceptions max_delay backoff jitter logger)
      (after n w).
Proof.
  intros Hq. induction n as [|n IH]; intros fuel w H; [reflexivity|].
  destruct (H O ltac:(lia)) as [[e [Hf Hi]] [Ht [Ht1 Hd]]].
  cbn [retried] in Hf, Ht, Ht1, Hd.
  cbn [Nat.add]. rewrite while_tries_step by exact Ht.
  rewrite (attempt_retried _ _ _ _ _ _ _ _ e)
    by (try apply quiet_logger_returns; assumption).
  cbn [retried]. apply IH.
  intros i Hi'. apply (H (S i)). lia.
Qed.

End Retried.

(** ** Runs of an operation that always fails *)

(** With [S n] tries the loop retries [n] times and the last pass raises
    what the operation raised in it. *)
Lemma always_fails_run is_async rng f exceptions (n : nat) delay max_delay
    backoff jitter logger fuel w :
  (S n <= fuel)%nat ->
  always_fails f exceptions ->
  quiet logger ->
  0 <= delay ->
  0 <= backoff ->
  match max_delay with Some m => 0 <= m | None => True end ->
  nonneg_jitter rng jitter ->
  let wn :=
    retried n rng f max_delay backoff jitter logger
      (mk_world (Z.of_nat (S n)) delay (events w)) in
  exists e,
    f (events wn) = Raises e /\
    execute is_async rng fuel f exceptions (Z.of_nat (S n)) delay max_delay
      backoff jitter logger w =
    (Exc e, mk_world 0 (_delay wn) (EvCall (Raises e) :: events wn)).
Proof.
  intros Hfuel Hf Hq Hd Hb Hm Hj wn.
  destruct (Hf (events wn)) as [e [He Hi]].
  exists e. split; [exact He|].
  rewrite execute_unfold.
  replace fuel with (n + S (fuel - S n))%nat by lia.
  rewrite while_retried.
  - fold wn.
    assert (Ht : _tries wn = 1).
    { unfold wn. rewrite retried_tries. cbn [_tries]. lia. }
    rewrite while_tries_step by lia.
    rewrite (attempt_exhausted _ _ _ _ _ _ _ _ e) by (assumption || lia).
    reflexivity.
  - exact Hq.
  - intros i Hi'. repeat split.
    + apply Hf.
    + rewrite retried_tries. cbn [_tries]. lia.
    + rewrite retried_tries. cbn [_tries]. lia.
    + apply retried_delay_nonneg; assumption.
Qed.

Lemma valid_nonneg_jitter rng delay max_delay backoff jitter :
  valid_delays delay max_delay backoff jitter ->
  sound rng ->
  nonneg_jitter rng jitter.
Proof.
  intros (_ & _ & _ & Hj) Hs. unfold nonneg_jitter.
  destruct jitter as [j|lo hi]; [exact Hj|].
  intros tr. specialize (Hs tr lo hi). lia.
Qed.

(** ** The claims *)

(** C1. With a finite number [N >= 1] of tries and an operation that fails
    on every invocation with a caught failure, the executor invokes the
    operation exactly [N] times and then raises the very failure of the
    [N]-th invocation: the last event of the run is that invocation, and
    what the run raises is what it raised.  The logger is absent or does
    not raise, and the numeric fields of the policy are in their ranges,
    so that no wait is refused. *)
Theorem C1_exhaustion_raises_last_failure :
  forall is_async rng f exceptions (N : nat) delay max_delay backoff jitter
         logger fuel w,
    (1 <= N)%nat ->
    (N <= fuel)%nat ->
    always_fails f exceptions ->
    quiet logger ->
    valid_delays delay max_delay backoff jitter ->
    sound rng ->
    exists e tr w',
      execute is_async rng fuel f exceptions (Z.of_nat N) delay max_delay
        backoff jitter logger w = (Exc e, w') /\
      events w' = EvCall (Raises e) :: tr /\
      f tr = Raises e /\
      calls tr = (calls (events w) + (N - 1))%nat /\
      calls (events w') = (calls (events w) + N)%nat.
Proof.
  intros is_async rng f exceptions N delay max_delay backoff jitter logger
    fuel w HN Hfuel Hf Hq Hv Hs.
  destruct N as [|n]; [lia|].
  pose proof (valid_nonneg_jitter _ _ _ _ _ Hv Hs) as Hj.
  destruct Hv as (Hd & Hb & Hm & _).
  destruct (always_fails_run is_async rng f exceptions n delay max_delay
              backoff jitter logger fuel w Hfuel Hf Hq Hd Hb Hm Hj)
    as [e [He Hrun]].
  eexists e, _, _. split; [exact Hrun|].
  pose proof (retried_calls rng f max_delay backoff jitter logger n
                (mk_world (Z.of_nat (S n)) delay (events w))) as Hc.
  cbn [events] in Hc. cbn [events calls]. rewrite Hc.
  repeat split; try assumption; lia.
Qed.

Lemma C1_witness :
  exists e tr w',
    execute true low_rng 5 always_zero_division (OneClass Exception)
      (Z.of_nat 5) 1 None 2 (JFixed 0) (Some logging_logger) fresh =
    (Exc e, w') /\
    events w' = EvCall (Raises e) :: tr /\
    always_zero_division tr = Raises e /\
    calls tr = (calls (events fresh) + (5 - 1))%nat /\
    calls (events w') = (calls (events fresh) + 5)%nat.
Proof.
  apply C1_exhaustion_raises_last_failure.
  - lia.
  - lia.
  - intros tr. eexists. split; reflexivity.
  - intros lg H tr e d. injection H as <-. reflexivity.
  - unfold valid_delays. lia.
  - intros tr lo hi H. unfold low_rng. lia.
Defined.

(** C3. A first invocation that fails with a failure the [except] clause
    does not catch ends the run at once: that failure is raised as it is,
    the operation has been invoked once, [_tries] still holds the number of
    tries it was given, the logger has not been called and nothing has been
    waited. *)
Theorem C3_uncaught_failure_raised_at_once :
  forall is_async rng fuel f exceptions tries delay max_delay backoff jitter
         logger w e,
    tries <> 0 ->
    f (events w) = Raises e ->
    isinstance e exceptions = false ->
    exists w',
      execute is_async rng (S fuel) f exceptions tries delay max_delay
        backoff jitter logger w = (Exc e, w') /\
      events w' = EvCall (Raises e) :: events w /\
      _tries w' = tries /\
      calls (events w') = S (calls (events w)) /\
      warnings (events w') = warnings (events w) /\
      waits (events w') = waits (events w) /\
      total_wait (events w') = total_wait (events w).
Proof.
  intros is_async rng fuel f exceptions tries delay max_delay backoff jitter
    logger w e Ht Hf Hi.
  rewrite execute_unfold. rewrite while_tries_step by exact Ht.
  rewrite (attempt_fatal _ _ _ _ _ _ _ _ e) by assumption.
  eexists. split; [reflexivity|]. cbn. repeat split.
Qed.

Lemma C3_witness :
  exists w',
    execute false low_rng 1 always_zero_division (OneClass ValueError) 3 1
      (Some 4) 2 (JRange 0 1) (Some logging_logger) fresh =
    (Exc (mk_exn ZeroDivisionError 0), w') /\
    events w' = EvCall (Raises (mk_exn ZeroDivisionError 0)) :: events fresh /\
    _tries w' = 3 /\
    calls (events w') = S (calls (events fresh)) /\
    warnings (events w') = warnings (events fresh) /\
    waits (events w') = waits (events fresh) /\
    total_wait (events w') = total_wait (events fresh).
Proof.
  apply C3_uncaught_failure_raised_at_once.
  - lia.
  - reflexivity.
  - reflexivity.
Defined.

(** C9. With [tries = 0] the loop body is never entered: the executor
    returns [None], whatever the operation and the other parameters, and
    leaves the trace as it found it (no invocation, no wait, no error).
    The same holds through [retry_call_sync] and [retry_call_async]. *)
Theorem C9_zero_tries_returns_none :
  forall is_async rng fuel f exceptions delay max_delay backoff jitter
         logger w,
    execute is_async rng fuel f exceptions 0 delay max_delay backoff jitter
      logger w = (Val VNone, mk_world 0 delay (events w)) /\
    forall g fargs fkwargs,
      retry_call_sync rng fuel g fargs fkwargs exceptions 0 delay max_delay
        backoff jitter logger w = (Val VNone, mk_world 0 delay (events w)) /\
      retry_call_async rng fuel g fargs fkwargs exceptions 0 delay max_delay
        backoff jitter logger w = (Val VNone, mk_world 0 delay (events w)).
Proof.
  intros is_async rng fuel f exceptions delay max_delay backoff jitter
    logger w.
  split; [|intros g fargs fkwargs; split].
  - rewrite execute_unfold. apply while_tries_done. reflexivity.
  - unfold retry_call_sync.
    rewrite <- (execute_sync false), execute_unfold.
    apply while_tries_done. reflexivity.
  - unfold retry_call_async. rewrite retry_internal_async_sync.
    rewrite <- (execute_sync false), execute_unfold.
    apply while_tries_done. reflexivity.
Qed.

Lemma C9_zero_tries_sample :
  execute true low_rng 0 always_zero_division (OneClass Exception) 0 1 None
    2 (JFixed 0) (Some broken_logger) fresh = (Val VNone, mk_world 0 1 []).
Proof. reflexivity. Qed.

(** C4. With an unbounded number of tries (a negative [tries], such as the
    default [-1]) and an operation that fails with a caught failure on its
    first [k - 1] invocations and returns [v] on the [k]-th, the executor
    terminates: [k] passes of the loop are enough for it to return [v], and
    the operation has then been invoked exactly [k] times. *)
Theorem C4_unbounded_tries_until_success :
  forall is_async rng f exceptions (k : nat) v tries delay max_delay backoff
         jitter logger fuel w,
    (1 <= k)%nat ->
    tries < 0 ->
    (k <= fuel)%nat ->
    calls (events w) = O ->
    fails_then_returns f exceptions k v ->
    quiet logger ->
    valid_delays delay max_delay backoff jitter ->
    sound rng ->
    exists w',
      execute is_async rng fuel f exceptions tries delay max_delay backoff
        jitter logger w = (Val v, w') /\
      calls (events w') = k.
Proof.
  intros is_async rng f exceptions k v tries delay max_delay backoff jitter
    logger fuel w Hk Ht Hfuel Hc [Hfail Hret] Hq Hv Hs.
  pose proof (valid_nonneg_jitter _ _ _ _ _ Hv Hs) as Hj.
  destruct Hv as (Hd & Hb & Hm & _).
  destruct k as [|n]; [lia|].
  set (w1 := mk_world tries delay (events w)).
  set (wn := retried n rng f max_delay backoff jitter logger w1).
  assert (Hcalls : forall i,
            calls (events (retried i rng f max_delay backoff jitter logger w1))
            = i).
  { intros i. rewrite retried_calls. unfold w1. cbn [events]. lia. }
  assert (Htries : forall i,
            _tries (retried i rng f max_delay backoff jitter logger w1) < 0).
  { intros i. rewrite retried_tries. unfold w1. cbn [_tries]. lia. }
  rewrite execute_unfold. fold w1.
  replace fuel with (n + S (fuel - S n))%nat by lia.
  rewrite while_retried.
  - fold wn.
    rewrite while_tries_step
      by (specialize (Htries n); fold wn in Htries; lia).
    rewrite (attempt_returns _ _ _ _ _ _ _ _ v)
      by (apply Hret; unfold wn; rewrite Hcalls; reflexivity).
    eexists. split; [reflexivity|].
    cbn [events calls]. unfold wn. rewrite Hcalls. reflexivity.
  - exact Hq.
  - intros i Hi. specialize (Htries i). repeat split; try lia.
    + apply Hfail. rewrite Hcalls. lia.
    + apply retried_delay_nonneg; assumption.
Qed.

Lemma C4_witness :
  exists w',
    execute true low_rng 10 (succeeds_on 10) (OneClass Exception) (-1) 0
      None 1 (JFixed 0) (Some logging_logger) fresh =
    (Val (VInt 10), w') /\
    calls (events w') = 10%nat.
Proof.
  apply C4_unbounded_tries_until_success.
  - lia.
  - lia.
  - lia.
  - reflexivity.
  - split; intros tr H; unfold succeeds_on.
    + destruct (Nat.eqb_spec (S (calls tr)) 10); [lia|].
      eexists. split; reflexivity.
    + rewrite H. reflexivity.
  - intros lg H tr e d. injection H as <-. reflexivity.
  - unfold valid_delays. lia.
  - intros tr lo hi H. unfold low_rng. lia.
Defined.

(** ** Waits of an operation that always fails *)

Lemma sum_snoc (l : list Z) (x : Z) :
  fold_right Z.add 0 (l ++ [x]) = fold_right Z.add 0 l + x.
Proof.
  induction l as [|a l IH]; cbn [app fold_right]; [lia|]. rewrite IH. lia.
Qed.

Section Uncapped.

Variable rng : generator.
Variable f : operation.
Variable backoff : Z.
Variable logger : option Logger.

Local Abbreviation after n := (retried n rng f None backoff (JFixed 0) logger).

Lemma uncapped_delay n w :
  _delay (after n w) = _delay w * backoff ^ Z.of_nat n.
Proof.
  induction n as [|n IH].
  - cbn [retried]. rewrite Z.pow_0_r. lia.
  - rewrite retried_snoc. cbn [after_retry _delay clamp]. rewrite IH.
    rewrite Nat2Z.inj_succ, Z.pow_succ_r by lia. lia.
Qed.

Lemma uncapped_total_wait n w :
  total_wait (events (after n w)) =
  total_wait (events w) +
  fold_right Z.add 0
    (map (fun i => _delay w * backoff ^ Z.of_nat i) (seq 0 n)).
Proof.
  induction n as [|n IH].
  - cbn. lia.
  - rewrite retried_snoc, after_retry_total_wait, IH, uncapped_delay.
    rewrite seq_S, map_app. cbn [map Nat.add]. rewrite sum_snoc. lia.
Qed.

End Uncapped.

Section Capped.

Variable rng : generator.
Variable f : operation.
Variable backoff : Z.
Variable logger : option Logger.
Variable d : Z.
Hypothesis d_nonneg : 0 <= d.
Hypothesis backoff_grows : 1 <= backoff.

Local Abbreviation after n :=
  (retried n rng f (Some d) backoff (JFixed 0) logger).

Lemma capped_delay n w : _delay w = d -> _delay (after n w) = d.
Proof.
  intros Hw. induction n as [|n IH]; [exact Hw|].
  rewrite retried_snoc. cbn [after_retry _delay clamp]. rewrite IH. nia.
Qed.

Lemma capped_waits n w :
  _delay w = d -> waits (events (after n w)) = waits (events w) ++ repeat d n.
Proof.
  intros Hw. induction n as [|n IH].
  - cbn [retried repeat]. rewrite app_nil_r. reflexivity.
  - rewrite retried_snoc, after_retry_waits, IH, capped_delay by exact Hw.
    rewrite <- app_assoc. f_equal. symmetry. apply (repeat_cons n d).
Qed.

Lemma capped_total_wait n w :
  _delay w = d ->
  total_wait (events (after n w)) = total_wait (events w) + d * Z.of_nat n.
Proof.
  intros Hw. induction n as [|n IH].
  - cbn [retried]. lia.
  - rewrite retried_snoc, after_retry_total_wait, IH, capped_delay
      by exact Hw.
    lia.
Qed.

End Capped.

(** C6 (amended).  Without jitter and without [max_delay], with [N >= 1]
    tries and an integer initial delay [d >= 0] and backoff [b >= 0], whose
    products Python computes exactly, a run against an operation that
    always fails with a caught failure waits, in total, the sum of
    [d * b ^ i] for [i] in [0 .. N - 2].  The witness is the run of the
    test suite: [delay = 1], [backoff = 2], [tries = 5] and a total of
    [1 + 2 + 4 + 8 = 15]. *)
Theorem C6_total_wait_is_geometric_sum :
  forall is_async rng f exceptions (N : nat) d b logger fuel w,
    (1 <= N)%nat ->
    (N <= fuel)%nat ->
    always_fails f exceptions ->
    quiet logger ->
    0 <= d ->
    0 <= b ->
    exists e w',
      execute is_async rng fuel f exceptions (Z.of_nat N) d None b (JFixed 0)
        logger w = (Exc e, w') /\
      total_wait (events w') = total_wait (events w) + geometric_wait d b N.
Proof.
  intros is_async rng f exceptions N d b logger fuel w HN Hfuel Hf Hq Hd Hb.
  destruct N as [|n]; [lia|].
  destruct (always_fails_run is_async rng f exceptions n d None b (JFixed 0)
              logger fuel w Hfuel Hf Hq Hd Hb I (Z.le_refl 0))
    as [e [He Hrun]].
  eexists e, _. split; [exact Hrun|].
  cbn [events total_wait]. rewrite uncapped_total_wait.
  unfold geometric_wait. cbn [_delay events].
  replace (S n - 1)%nat with n by lia. reflexivity.
Qed.

Lemma C6_witness :
  (exists e w',
     execute true low_rng 5 always_zero_division (OneClass Exception)
       (Z.of_nat 5) 1 None 2 (JFixed 0) (Some logging_logger) fresh =
     (Exc e, w') /\
     total_wait (events w') =
     total_wait (events fresh) + geometric_wait 1 2 5) /\
  total_wait (events fresh) + geometric_wait 1 2 5 = 1 + 2 + 4 + 8.
Proof.
  split.
  - apply C6_total_wait_is_geometric_sum.
    + lia.
    + lia.
    + intros tr. eexists. split; reflexivity.
    + intros lg H tr e d. injection H as <-. reflexivity.
    + lia.
    + lia.
  - reflexivity.
Defined.

(** C7, as the specification states it, fails for a backoff below [1]:
    with [delay = max_delay = 1], [backoff = 0] and [tries = 3] the waits
    are [1] and [0], not [1] and [1]. *)
Lemma C7_counterexample :
  fst run_backoff_zero = Exc (mk_exn ZeroDivisionError 2) /\
  calls (events (snd run_backoff_zero)) = 3%nat /\
  waits (events (snd run_backoff_zero)) = [1; 0] /\
  total_wait (events (snd run_backoff_zero)) <> 1 * (3 - 1).
Proof.
  vm_compute. repeat split. intros H. discriminate H.
Qed.

(** C7 (amended).  With [max_delay] equal to the initial delay [d >= 0], no
    jitter, [N >= 1] tries and a backoff of at least [1], a run against an
    operation that always fails with a caught failure waits [d] before each
    of its [N - 1] retries, [d * (N - 1)] in total: the delay computed after
    a wait is clamped to [max_delay] and never passes it. *)
Theorem C7_capped_wait_is_constant :
  forall is_async rng f exceptions (N : nat) d b logger fuel w,
    (1 <= N)%nat ->
    (N <= fuel)%nat ->
    always_fails f exceptions ->
    quiet logger ->
    0 <= d ->
    1 <= b ->
    exists e w',
      execute is_async rng fuel f exceptions (Z.of_nat N) d (Some d) b
        (JFixed 0) logger w = (Exc e, w') /\
      waits (events w') = waits (events w) ++ repeat d (N - 1) /\
      total_wait (events w') = total_wait (events w) + d * (Z.of_nat N - 1).
Proof.
  intros is_async rng f exceptions N d b logger fuel w HN Hfuel Hf Hq Hd Hb.
  destruct N as [|n]; [lia|].
  destruct (always_fails_run is_async rng f exceptions n d (Some d) b
              (JFixed 0) logger fuel w Hfuel Hf Hq Hd ltac:(lia) Hd
              (Z.le_refl 0))
    as [e [He Hrun]].
  eexists e, _. split; [exact Hrun|].
  cbn [events total_wait waits].
  rewrite capped_waits, capped_total_wait by (assumption || reflexivity).
  cbn [events]. replace (S n - 1)%nat with n by lia.
  split; [reflexivity | lia].
Qed.

Lemma C7_witness :
  exists e w',
    execute true low_rng 5 always_zero_division (OneClass Exception)
      (Z.of_nat 5) 1 (Some 1) 2 (JFixed 0) (Some logging_logger) fresh =
    (Exc e, w') /\
    waits (events w') = waits (events fresh) ++ repeat 1 (5 - 1) /\
    total_wait (events w') = total_wait (events fresh) + 1 * (Z.of_nat 5 - 1).
Proof.
  apply C7_capped_wait_is_constant.
  - lia.
  - lia.
  - intros tr. eexists. split; reflexivity.
  - intros lg H tr e d. injection H as <-. reflexivity.
  - lia.
  - lia.
Defined.

(** ** Any operation, any logger: what one pass can do *)

Lemma while_tries_out_of_fuel body w :
  _tries w <> 0 -> while_tries 0 body w = (OutOfFuel, w).
Proof.
  intros H. apply Z.eqb_neq in H.
  cbn [while_tries]. unfold bind, get_tries, out_of_fuel. rewrite H.
  reflexivity.
Qed.

(** A pass either is retried, after a wait of the current delay, or ends
    the run without having waited. *)
Lemma attempt_cases rng f exceptions max_delay backoff jitter logger w :
  (attempt_sync rng f exceptions max_delay backoff jitter logger w =
     (Val None, after_retry rng f max_delay backoff jitter logger w) /\
   0 <= _delay w) \/
  (exists r w',
     attempt_sync rng f exceptions max_delay backoff jitter logger w =
       (r, w') /\
     r <> Val None /\
     waits (events w') = waits (events w) /\
     calls (events w') = S (calls (events w))).
Proof.
  destruct (f (events w)) as [v|e] eqn:Hf.
  { right. eexists _, _. split; [apply attempt_returns; exact Hf|].
    cbn. repeat split. discriminate. }
  destruct (isinstance e exceptions) eqn:Hi.
  2:{ right. eexists _, _. split; [apply attempt_fatal; eassumption|].
      cbn. repeat split. discriminate. }
  destruct (Z.eq_dec (_tries w - 1) 0) as [Ht|Ht].
  { right. eexists _, _. split; [apply attempt_exhausted; eassumption|].
    cbn. repeat split. discriminate. }
  assert (Hlog : logger_returns logger e w \/
                 exists lg err, logger = Some lg /\
                   lg (EvCall (Raises e) :: events w) e (_delay w) = Some err).
  { destruct logger as [lg|]; cbn [logger_returns]; [|left; exact I].
    destruct (lg (EvCall (Raises e) :: events w) e (_delay w)) as [err|] eqn:Hl.
    - right. eexists _, _. split; [reflexivity | exact Hl].
    - left. reflexivity. }
  destruct Hlog as [Hlog | (lg & err & -> & Hl)].
  2:{ right. eexists _, _.
      split; [apply attempt_logger_raises; eassumption|].
      cbn. repeat split. discriminate. }
  destruct (Z_lt_dec (_delay w) 0) as [Hd|Hd].
  { right. eexists _, _.
    split; [apply attempt_sleep_raises; eassumption|].
    destruct logger; cbn; repeat split; discriminate. }
  left. split; [apply (attempt_retried _ _ _ _ _ _ _ _ e); assumption || lia|].
  lia.
Qed.

(** Once the delay is below [max_delay], every wait of the loop is. *)
Lemma capped_loop_waits rng f exceptions m backoff jitter logger :
  forall fuel w r w',
    _delay w <= m ->
    while_tries fuel
      (attempt_sync rng f exceptions (Some m) backoff jitter logger) w =
      (r, w') ->
    exists later,
      waits (events w') = waits (events w) ++ later /\
      Forall (fun x => x <= m) later.
Proof.
  induction fuel as [|fuel IH]; intros w r w' Hd Hrun.
  - exists []. rewrite app_nil_r. split; [|constructor].
    destruct (Z.eq_dec (_tries w) 0) as [Ht|Ht].
    + rewrite while_tries_done in Hrun by exact Ht. congruence.
    + rewrite while_tries_out_of_fuel in Hrun by exact Ht. congruence.
  - destruct (Z.eq_dec (_tries w) 0) as [Ht|Ht].
    { rewrite while_tries_done in Hrun by exact Ht.
      exists []. rewrite app_nil_r. split; [congruence | constructor]. }
    rewrite while_tries_step in Hrun by exact Ht.
    destruct (attempt_cases rng f exceptions (Some m) backoff jitter logger w)
      as [[Hpass _] | (r0 & w0 & Hpass & Hr0 & Hw & _)];
      rewrite Hpass in Hrun.
    + apply IH in Hrun.
      * destruct Hrun as [later [Hwaits Hall]].
        exists (_delay w :: later). rewrite after_retry_waits in Hwaits.
        rewrite <- app_assoc in Hwaits. split; [exact Hwaits|].
        constructor; assumption.
      * destruct (after_retry_delay rng f (Some m) backoff jitter logger w)
          as [x [-> _]].
        cbn [clamp]. lia.
    + exists []. rewrite app_nil_r. split; [|constructor].
      destruct r0 as [[v|]|e|]; try congruence.
Qed.

(** C10. When [max_delay] is set and the initial delay exceeds it, a run
    that makes a second attempt has waited the whole initial delay before
    it: the first wait is [delay], above [max_delay], and every later wait
    is at most [max_delay].  The clamp is applied to the delay computed
    after a wait, never to the initial one. *)
Theorem C10_initial_delay_is_not_clamped :
  forall is_async rng fuel f exceptions tries delay m backoff jitter logger
         w r w',
    m < delay ->
    execute is_async rng fuel f exceptions tries delay (Some m) backoff
      jitter logger w = (r, w') ->
    (calls (events w) + 2 <= calls (events w'))%nat ->
    exists later,
      waits (events w') = waits (events w) ++ delay :: later /\
      Forall (fun x => x <= m) later.
Proof.
  intros is_async rng fuel f exceptions tries delay m backoff jitter logger
    w r w' Hm Hrun Hcalls.
  rewrite execute_unfold in Hrun.
  set (w1 := mk_world tries delay (events w)) in Hrun.
  destruct (Z.eq_dec tries 0) as [Ht|Ht].
  { rewrite while_tries_done in Hrun by exact Ht.
    injection Hrun as _ <-. cbn [events w1] in Hcalls. lia. }
  destruct fuel as [|fuel].
  { rewrite while_tries_out_of_fuel in Hrun by exact Ht.
    injection Hrun as _ <-. cbn [events w1] in Hcalls. lia. }
  rewrite while_tries_step in Hrun by exact Ht.
  destruct (attempt_cases rng f exceptions (Some m) backoff jitter logger w1)
    as [[Hpass _] | (r0 & w0 & Hpass & Hr0 & _ & Hc)];
    rewrite Hpass in Hrun.
  - apply capped_loop_waits in Hrun.
    + destruct Hrun as [later [Hwaits Hall]].
      exists later. rewrite after_retry_waits in Hwaits.
      rewrite <- app_assoc in Hwaits. exact (conj Hwaits Hall).
    + destruct (after_retry_delay rng f (Some m) backoff jitter logger w1)
        as [x [-> _]].
      cbn [clamp]. lia.
  - assert (w' = w0) by (destruct r0 as [[v|]|e|]; congruence).
    subst w0. cbn [events w1] in Hc. lia.
Qed.

Lemma C10_witness :
  exists later,
    waits (events (snd run_delay_above_cap)) =
    waits (events fresh) ++ 5 :: later /\
    Forall (fun x => x <= 2) later.
Proof.
  apply (C10_initial_delay_is_not_clamped false low_rng 3
           always_zero_division (OneClass Exception) 3 5 2 2 (JFixed 0) None
           fresh (fst run_delay_above_cap) (snd run_delay_above_cap)).
  - lia.
  - reflexivity.
  - vm_compute. lia.
Defined.

(** C5. A pass in which the invocation fails with a caught failure [e]
    while attempts remain tells the logger, when there is one, exactly once:
    [warning] receives [e] and the value [_delay] has at that moment, which
    is the delay about to be waited, and no other call of the logger or of
    the operation happens in that pass.  If [warning] raises, the loop ends
    there and then with that error: nothing is waited, the operation is not
    invoked again. *)
Theorem C5_logger_told_once_and_not_shielded :
  forall is_async rng f exceptions max_delay backoff jitter lg w e,
    f (events w) = Raises e ->
    isinstance e exceptions = true ->
    _tries w <> 0 ->
    _tries w - 1 <> 0 ->
    let body :=
      attempt is_async rng f exceptions max_delay backoff jitter (Some lg) in
    let heard := EvWarn e (_delay w) :: EvCall (Raises e) :: events w in
    match lg (EvCall (Raises e) :: events w) e (_delay w) with
    | Some err =>
        forall fuel,
          while_tries (S fuel) body w =
          (Exc err, mk_world (_tries w - 1) (_delay w) heard)
    | None =>
        exists r w' rest,
          body w = (r, w') /\
          events w' = rest ++ heard /\
          warnings rest = O /\
          calls rest = O /\
          (0 <= _delay w ->
           r = Val None /\
           (exists rest', rest = rest' ++ [EvWait Blocking (_delay w)]) /\
           forall fuel,
             while_tries (S fuel) body w = while_tries fuel body w')
    end.
Proof.
  intros is_async rng f exceptions max_delay backoff jitter lg w e Hf Hi Ht
    Ht1 body heard.
  unfold body. rewrite attempt_mode.
  destruct (lg (EvCall (Raises e) :: events w) e (_delay w)) as [err|] eqn:Hl.
  - intros fuel. rewrite while_tries_step by exact Ht.
    rewrite (attempt_logger_raises _ _ _ _ _ _ _ _ e err) by assumption.
    reflexivity.
  - destruct (Z_lt_dec (_delay w) 0) as [Hd|Hd].
    + eexists (Exc sleep_error), _, [].
      split;
        [apply (attempt_sleep_raises _ _ _ _ _ _ _ _ e);
         assumption || exact Hl|].
      cbn [told events app warnings calls].
      split; [reflexivity|]. split; [reflexivity|]. split; [reflexivity|].
      intros Hd'. lia.
    + assert (Hpass :
        attempt_sync rng f exceptions max_delay backoff jitter (Some lg) w =
        (Val None, after_retry rng f max_delay backoff jitter (Some lg) w))
        by (apply (attempt_retried _ _ _ _ _ _ _ _ e);
            assumption || exact Hl || lia).
      eexists (Val None), _.
      exists (match jitter with
              | JFixed _ => [EvWait Blocking (_delay w)]
              | JRange lo hi =>
                  [EvUniform lo hi (rng (EvWait Blocking (_delay w) :: heard)
                                        lo hi);
                   EvWait Blocking (_delay w)]
              end).
      split; [exact Hpass|].
      unfold after_retry. rewrite Hf. cbn [failure_of].
      destruct jitter as [j|lo hi]; cbn [events app warnings calls];
        repeat split.
      * exists []. reflexivity.
      * intros fuel. rewrite while_tries_step by exact Ht.
        rewrite Hpass. unfold after_retry. rewrite Hf. reflexivity.
      * eexists [_]. reflexivity.
      * intros fuel. rewrite while_tries_step by exact Ht.
        rewrite Hpass. unfold after_retry. rewrite Hf. reflexivity.
Qed.

Lemma C5_witness :
  (forall fuel,
     while_tries (S fuel)
       (attempt true low_rng always_zero_division (OneClass Exception) None 2
          (JFixed 0) (Some broken_logger))
       (mk_world 3 1 []) =
     (Exc (mk_exn RuntimeError 7),
      mk_world 2 1
        [EvWarn (mk_exn ZeroDivisionError 0) 1;
         EvCall (Raises (mk_exn ZeroDivisionError 0))])) /\
  (exists r w' rest,
     attempt true low_rng always_zero_division (OneClass Exception) None 2
       (JFixed 0) (Some logging_logger) (mk_world 3 1 []) = (r, w') /\
     events w' =
       rest ++ [EvWarn (mk_exn ZeroDivisionError 0) 1;
                EvCall (Raises (mk_exn ZeroDivisionError 0))] /\
     warnings rest = O /\
     calls rest = O /\
     (0 <= 1 ->
      r = Val None /\
      (exists rest', rest = rest' ++ [EvWait Blocking 1]) /\
      forall fuel,
        while_tries (S fuel)
          (attempt true low_rng always_zero_division (OneClass Exception)
             None 2 (JFixed 0) (Some logging_logger))
          (mk_world 3 1 []) =
        while_tries fuel
          (attempt true low_rng always_zero_division (OneClass Exception)
             None 2 (JFixed 0) (Some logging_logger))
          w')).
Proof.
  split.
  - refine (C5_logger_told_once_and_not_shielded true low_rng
              always_zero_division (OneClass Exception) None 2 (JFixed 0)
              broken_logger (mk_world 3 1 []) (mk_exn ZeroDivisionError 0)
              _ _ _ _).
    + reflexivity.
    + reflexivity.
    + cbn. lia.
    + cbn. lia.
  - refine (C5_logger_told_once_and_not_shielded true low_rng
              always_zero_division (OneClass Exception) None 2 (JFixed 0)
              logging_logger (mk_world 3 1 []) (mk_exn ZeroDivisionError 0)
              _ _ _ _).
    + reflexivity.
    + reflexivity.
    + cbn. lia.
    + cbn. lia.
Defined.

(** ** Construction of a policy *)

Lemma or_empty_some {A} (l : list A) : or_empty (Some l) = l.
Proof. destruct l; reflexivity. Qed.

(** C2, as the specification states it, fails: no configuration is
    rejected when the policy is constructed.  [retry] returns its decorator
    for [tries = 0], for a negative delay and for an inverted jitter range;
    [retry_call_sync] with [tries = 0] returns [None]; and a negative delay
    shows at execute time only, when [time.sleep] refuses it after the
    first failed invocation. *)
Lemma C2_counterexample :
  (forall err,
     fst (retry low_rng false (OneClass Exception) 0 0 None 1 (JFixed 0)
            None fresh) <> Exc err) /\
  (forall err,
     fst (retry low_rng false (OneClass Exception) 3 (-1) None 1 (JFixed 0)
            None fresh) <> Exc err) /\
  (forall err,
     fst (retry low_rng true (OneClass Exception) 3 0 None 1 (JRange 2 1)
            None fresh) <> Exc err) /\
  retry_call_sync low_rng 1 (fun _ _ => always_zero_division) None None
    (OneClass Exception) 0 0 None 1 (JFixed 0) None fresh =
  (Val VNone, fresh) /\
  retry_call_sync low_rng 3 (fun _ _ => always_zero_division) None None
    (OneClass Exception) 3 (-1) None 1 (JFixed 0) None fresh =
  (Exc sleep_error,
   mk_world 2 (-1) [EvCall (Raises (mk_exn ZeroDivisionError 0))]).
Proof.
  repeat split; intros err H; discriminate H.
Qed.

(** C2 (amended).  Constructing a policy validates nothing: for every
    configuration, [tries = 0], a negative delay and an inverted jitter
    range included, [retry] returns its decorator without raising and
    without touching the operation or anything else, and the decorated
    function does no more than run the executor, in the chosen mode, on the
    operation bound to its arguments. *)
Theorem C2_construction_never_raises :
  forall rng is_async exceptions tries delay max_delay backoff jitter logger
         w,
    exists dec : decorator,
      retry rng is_async exceptions tries delay max_delay backoff jitter
        logger w = (Val dec, w) /\
      forall g fuel fargs fkwargs,
        dec g fuel fargs fkwargs =
        execute is_async rng fuel (partial g fargs fkwargs) exceptions tries
          delay max_delay backoff jitter logger.
Proof.
  intros rng is_async exceptions tries delay max_delay backoff jitter logger
    w.
  unfold retry, execute.
  destruct is_async; eexists; (split; [reflexivity|]);
    intros g fuel fargs fkwargs; cbv beta zeta; rewrite !or_empty_some;
    reflexivity.
Qed.

(** C8.  The asynchronous executor waits with [time.sleep]: between the two
    attempts of this run the calling thread is blocked for one second, and
    no wait of the run suspends the task. *)
Theorem C8_async_wait_blocks_the_thread :
  fst run_async_two_tries = Exc (mk_exn ZeroDivisionError 1) /\
  events (snd run_async_two_tries) =
    [EvCall (Raises (mk_exn ZeroDivisionError 1));
     EvWait Blocking 1;
     EvCall (Raises (mk_exn ZeroDivisionError 0))] /\
  all_suspending (events (snd run_async_two_tries)) = false.
Proof. repeat split. Qed.


(** * Further properties of the executor *)

(** ** Every pass is one of the six *)

Lemma attempt_pass rng f exceptions max_delay backoff jitter logger w :
  pass rng f exceptions max_delay backoff jitter logger w
    (fst (attempt_sync rng f exceptions max_delay backoff jitter logger w))
    (snd (attempt_sync rng f exceptions max_delay backoff jitter logger w)).
Proof.
  destruct (f (events w)) as [v|e] eqn:Hf.
  { rewrite (attempt_returns _ _ _ _ _ _ _ _ v) by exact Hf.
    apply pass_returns. exact Hf. }
  destruct (isinstance e exceptions) eqn:Hi.
  2:{ rewrite (attempt_fatal _ _ _ _ _ _ _ _ e) by assumption.
      apply pass_uncaught; assumption. }
  destruct (Z.eq_dec (_tries w - 1) 0) as [Ht|Ht].
  { rewrite (attempt_exhausted _ _ _ _ _ _ _ _ e) by assumption.
    apply pass_exhausted; assumption. }
  assert (Hlog : logger_returns logger e w \/
                 exists lg err, logger = Some lg /\
                   lg (EvCall (Raises e) :: events w) e (_delay w) = Some err).
  { destruct logger as [lg|]; cbn [logger_returns]; [|left; exact I].
    destruct (lg (EvCall (Raises e) :: events w) e (_delay w)) as [err|] eqn:Hl.
    - right. eexists _, _. split; [reflexivity | exact Hl].
    - left. reflexivity. }
  destruct Hlog as [Hlog | (lg & err & -> & Hl)].
  2:{ rewrite (attempt_logger_raises _ _ _ _ _ _ _ _ e err) by assumption.
      apply (pass_logger_raised _ _ _ _ _ _ _ _ lg);
        assumption || reflexivity. }
  destruct (Z_lt_dec (_delay w) 0) as [Hd|Hd].
  { rewrite (attempt_sleep_raises _ _ _ _ _ _ _ _ e) by assumption.
    apply pass_wait_refused; assumption. }
  rewrite (attempt_retried _ _ _ _ _ _ _ _ e) by (assumption || lia).
  apply (pass_retried _ _ _ _ _ _ _ _ e); assumption || lia.
Qed.

(** A proof rule for the loop: an invariant [I] of the loop head kept by
    every retried pass, and a property [Q] of every way out. *)
Lemma while_rule rng f exceptions max_delay backoff jitter logger
    (I : world -> Prop) (Q : res value -> world -> Prop) :
  (forall w, I w -> _tries w = 0 -> Q (Val VNone) w) ->
  (forall w, I w -> _tries w <> 0 -> Q OutOfFuel w) ->
  (forall w r w',
     I w -> _tries w <> 0 ->
     pass rng f exceptions max_delay backoff jitter logger w r w' ->
     match r with
     | Val None => I w'
     | Val (Some v) => Q (Val v) w'
     | Exc e => Q (Exc e) w'
     | OutOfFuel => True
     end) ->
  forall fuel w r w',
    I w ->
    while_tries fuel
      (attempt_sync rng f exceptions max_delay backoff jitter logger) w =
      (r, w') ->
    Q r w'.
Proof.
  intros Hdone Hfuel Hpass.
  induction fuel as [|fuel IH]; intros w r w' HI Hrun.
  - destruct (Z.eq_dec (_tries w) 0) as [Ht|Ht].
    + rewrite while_tries_done in Hrun by exact Ht.
      injection Hrun as <- <-. apply Hdone; assumption.
    + rewrite while_tries_out_of_fuel in Hrun by exact Ht.
      injection Hrun as <- <-. apply Hfuel; assumption.
  - destruct (Z.eq_dec (_tries w) 0) as [Ht|Ht].
    { rewrite while_tries_done in Hrun by exact Ht.
      injection Hrun as <- <-. apply Hdone; assumption. }
    rewrite while_tries_step in Hrun by exact Ht.
    pose proof (attempt_pass rng f exceptions max_delay backoff jitter
                  logger w) as Hp.
    destruct (attempt_sync rng f exceptions max_delay backoff jitter logger w)
      as [r0 w0].
    cbn [fst snd] in Hp.
    pose proof (Hpass w r0 w0 HI Ht Hp) as Hstep.
    destruct r0 as [[v|]|e|].
    + injection Hrun as <- <-. exact Hstep.
    + apply (IH w0); assumption.
    + injection Hrun as <- <-. exact Hstep.
    + inversion Hp.
Qed.

(** The rule at the level of the executor. *)
Lemma execute_rule is_async rng f exceptions tries delay max_delay backoff
    jitter logger (I : world -> Prop) (Q : res value -> world -> Prop) w :
  I (mk_world tries delay (events w)) ->
  (forall w, I w -> _tries w = 0 -> Q (Val VNone) w) ->
  (forall w, I w -> _tries w <> 0 -> Q OutOfFuel w) ->
  (forall w r w',
     I w -> _tries w <> 0 ->
     pass rng f exceptions max_delay backoff jitter logger w r w' ->
     match r with
     | Val None => I w'
     | Val (Some v) => Q (Val v) w'
     | Exc e => Q (Exc e) w'
     | OutOfFuel => True
     end) ->
  forall fuel r w',
    execute is_async rng fuel f exceptions tries delay max_delay backoff
      jitter logger w = (r, w') ->
    Q r w'.
Proof.
  intros HI Hdone Hfuel Hpass fuel r w' Hrun.
  rewrite execute_unfold in Hrun.
  exact (while_rule rng f exceptions max_delay backoff jitter logger I Q
           Hdone Hfuel Hpass fuel _ r w' HI Hrun).
Qed.

(** ** The first pass *)

(** X1. When the first invocation returns, the executor returns that value
    at once, whatever the policy and the logger: one invocation, no
    warning, no wait, [_tries] as given. *)
Theorem first_attempt_success_returns_at_once :
  forall is_async rng fuel f exceptions tries delay max_delay backoff jitter
         logger w v,
    tries <> 0 ->
    f (events w) = Returns v ->
    execute is_async rng (S fuel) f exceptions tries delay max_delay backoff
      jitter logger w =
    (Val v, mk_world tries delay (EvCall (Returns v) :: events w)).
Proof.
  intros is_async rng fuel f exceptions tries delay max_delay backoff jitter
    logger w v Ht Hf.
  rewrite execute_unfold, while_tries_step by exact Ht.
  rewrite (attempt_returns _ _ _ _ _ _ _ _ v) by exact Hf.
  reflexivity.
Qed.

Lemma first_attempt_success_witness :
  execute true low_rng 1 (succeeds_on 1) (OneClass Exception) (-1) (-5)
    (Some 0) 2 (JRange 3 1) (Some broken_logger) fresh =
  (Val (VInt 1), mk_world (-1) (-5) [EvCall (Returns (VInt 1))]).
Proof.
  apply first_attempt_success_returns_at_once.
  - lia.
  - reflexivity.
Defined.

(** X2. With [tries = 1] a failure of the only invocation is raised as it
    is, caught by the [except] clause or not: the logger is not called and
    nothing is waited, even with a logger that raises or a negative
    delay. *)
Theorem single_try_raises_without_wait :
  forall is_async rng fuel f exceptions delay max_delay backoff jitter logger
         w e,
    f (events w) = Raises e ->
    exists w',
      execute is_async rng (S fuel) f exceptions 1 delay max_delay backoff
        jitter logger w = (Exc e, w') /\
      events w' = EvCall (Raises e) :: events w.
Proof.
  intros is_async rng fuel f exceptions delay max_delay backoff jitter logger
    w e Hf.
  rewrite execute_unfold, while_tries_step by (cbn; lia).
  destruct (isinstance e exceptions) eqn:Hi.
  - rewrite (attempt_exhausted _ _ _ _ _ _ _ _ e)
      by (assumption || reflexivity).
    eexists. split; reflexivity.
  - rewrite (attempt_fatal _ _ _ _ _ _ _ _ e) by assumption.
    eexists. split; reflexivity.
Qed.

Lemma single_try_witness :
  exists w',
    execute false low_rng 1 always_zero_division (OneClass Exception) 1 (-3)
      None 2 (JFixed 0) (Some broken_logger) fresh =
    (Exc (mk_exn ZeroDivisionError 0), w') /\
    events w' = EvCall (Raises (mk_exn ZeroDivisionError 0)) :: events fresh.
Proof.
  apply single_try_raises_without_wait. reflexivity.
Defined.



(** ** Any operation, any logger *)

Lemma bounded_loop rng f exceptions max_delay backoff jitter logger :
  forall (n fuel : nat) w r w',
    _tries w = Z.of_nat n ->
    (n <= fuel)%nat ->
    while_tries fuel
      (attempt_sync rng f exceptions max_delay backoff jitter logger) w =
      (r, w') ->
    ended r = true /\
    (calls (events w') <= calls (events w) + n)%nat.
Proof.
  induction n as [|n IH]; intros fuel w r w' Ht Hfuel Hrun.
  - rewrite while_tries_done in Hrun by exact Ht.
    injection Hrun as <- <-. split; [reflexivity | lia].
  - destruct fuel as [|fuel]; [lia|].
    rewrite while_tries_step in Hrun by lia.
    pose proof (attempt_pass rng f exceptions max_delay backoff jitter
                  logger w) as Hp.
    destruct (attempt_sync rng f exceptions max_delay backoff jitter logger w)
      as [r0 w0].
    cbn [fst snd] in Hp.
    inversion Hp; subst; try (injection Hrun as <- <-);
      try (split; [reflexivity | cbn [events calls]; lia]).
    + destruct logger; cbn [told events calls ended];
        (split; [reflexivity | lia]).
    + apply IH in Hrun.
      * rewrite after_retry_calls in Hrun. split; [apply Hrun | lia].
      * rewrite after_retry_tries. lia.
      * lia.
Qed.

(** X4. A finite number [N] of tries bounds the run for every operation,
    logger and policy: [N] passes of the loop are enough for it to end, and
    the operation is invoked at most [N] times. *)
Theorem finite_tries_bound_the_invocations :
  forall is_async rng fuel f exceptions (N : nat) delay max_delay backoff
         jitter logger w r w',
    (N <= fuel)%nat ->
    execute is_async rng fuel f exceptions (Z.of_nat N) delay max_delay
      backoff jitter logger w = (r, w') ->
    ended r = true /\
    (calls (events w') <= calls (events w) + N)%nat.
Proof.
  intros is_async rng fuel f exceptions N delay max_delay backoff jitter
    logger w r w' Hfuel Hrun.
  rewrite execute_unfold in Hrun.
  apply (bounded_loop _ _ _ _ _ _ _ N) in Hrun;
    [exact Hrun | reflexivity | exact Hfuel].
Qed.

Lemma finite_tries_bound_witness :
  ended (fst run_range_jitter) = true /\
  (calls (events (snd run_range_jitter)) <= calls (events fresh) + 4)%nat.
Proof.
  apply (finite_tries_bound_the_invocations true high_rng 4
           always_zero_division (OneClass ArithmeticError) 4 1 (Some 6) 2
           (JRange 1 3) (Some logging_logger) fresh).
  - lia.
  - reflexivity.
Defined.

Lemma waits_told logger e w :
  waits (told logger e w) = waits (events w).
Proof. destruct logger; reflexivity. Qed.

Lemma calls_told logger e w :
  calls (told logger e w) = S (calls (events w)).
Proof. destruct logger; reflexivity. Qed.

(** X5. Waits happen between attempts only.  In every run that invokes the
    operation and ends, for any operation, logger and policy, the number of
    waits is the number of invocations less one; a run stopped for lack of
    fuel has waited once after each invocation. *)
Theorem one_wait_between_two_attempts :
  forall is_async rng fuel f exceptions tries delay max_delay backoff jitter
         logger w r w',
    tries <> 0 ->
    execute is_async rng fuel f exceptions tries delay max_delay backoff
      jitter logger w = (r, w') ->
    (calls (events w') + List.length (waits (events w)) =
     calls (events w) + List.length (waits (events w')) +
     (if ended r then 1 else 0))%nat.
Proof.
  intros is_async rng fuel f exceptions tries delay max_delay backoff jitter
    logger w r w' Ht Hrun.
  revert fuel r w' Hrun.
  apply (execute_rule is_async rng f exceptions tries delay max_delay backoff
           jitter logger
           (fun w1 =>
              _tries w1 <> 0 /\
              (calls (events w1) + List.length (waits (events w)) =
               calls (events w) + List.length (waits (events w1)))%nat)
           (fun r w' =>
              (calls (events w') + List.length (waits (events w)) =
               calls (events w) + List.length (waits (events w')) +
               (if ended r then 1 else 0))%nat)).
  - cbn [_tries events]. split; [exact Ht | reflexivity].
  - intros w1 [Hne _] Hz. contradiction.
  - intros w1 [_ Hc] _. cbn [ended]. lia.
  - intros w1 r w' [_ Hc] Hne Hp.
    inversion Hp; subst; cbn [ended events calls waits];
      rewrite ?waits_told, ?calls_told; try lia.
    split.
    + rewrite after_retry_tries. assumption.
    + rewrite after_retry_calls, after_retry_waits, length_app.
      cbn [List.length]. lia.
Qed.

Lemma one_wait_between_two_attempts_witness :
  (calls (events (snd run_logger_breaks)) + List.length (waits (events fresh)) =
   calls (events fresh) + List.length (waits (events (snd run_logger_breaks))) +
   (if ended (fst run_logger_breaks) then 1 else 0))%nat.
Proof.
  apply (one_wait_between_two_attempts false low_rng 5 always_zero_division
           (OneClass Exception) 5 1 None 2 (JFixed 0)
           (Some logger_breaks_later) fresh).
  - lia.
  - reflexivity.
Defined.

(** X6. A value returned by a run that entered the loop is the value the
    operation returned in its last invocation, which is the last event of
    the run. *)
Theorem returned_value_is_the_operation_s :
  forall is_async rng fuel f exceptions tries delay max_delay backoff jitter
         logger w v w',
    tries <> 0 ->
    execute is_async rng fuel f exceptions tries delay max_delay backoff
      jitter logger w = (Val v, w') ->
    exists tr, events w' = EvCall (Returns v) :: tr /\ f tr = Returns v.
Proof.
  intros is_async rng fuel f exceptions tries delay max_delay backoff jitter
    logger w v w' Ht Hrun.
  revert fuel Hrun.
  cut (forall fuel r w',
         execute is_async rng fuel f exceptions tries delay max_delay backoff
           jitter logger w = (r, w') ->
         forall v, r = Val v ->
           exists tr, events w' = EvCall (Returns v) :: tr /\ f tr = Returns v).
  { intros H fuel Hrun. exact (H fuel _ _ Hrun v eq_refl). }
  apply (execute_rule is_async rng f exceptions tries delay max_delay backoff
           jitter logger (fun w1 => _tries w1 <> 0)
           (fun r w' =>
              forall v, r = Val v ->
                exists tr,
                  events w' = EvCall (Returns v) :: tr /\ f tr = Returns v)).
  - exact Ht.
  - intros w1 Hne Hz. contradiction.
  - intros w1 _ _ got Hgot. discriminate Hgot.
  - intros w1 r w2 _ Hne Hp.
    inversion Hp; subst; try (intros got Hgot; discriminate Hgot).
    + intros got Hgot. injection Hgot as <-.
      eexists. split; [reflexivity | assumption].
    + rewrite after_retry_tries. assumption.
Qed.

Lemma returned_value_witness :
  exists tr,
    events (snd (execute false low_rng 5 fails_twice_then_three
                   (OneClass RuntimeError) 5 0 None 1 (JFixed 0) None fresh))
    = EvCall (Returns (VInt 3)) :: tr /\
    fails_twice_then_three tr = Returns (VInt 3).
Proof.
  apply (returned_value_is_the_operation_s false low_rng 5
           fails_twice_then_three (OneClass RuntimeError) 5 0 None 1
           (JFixed 0) None fresh).
  - lia.
  - reflexivity.
Defined.

(** X8. [logger=None] disables logging: no run, of any operation, calls
    [warning]. *)
Theorem no_logger_no_warning :
  forall is_async rng fuel f exceptions tries delay max_delay backoff jitter
         w r w',
    execute is_async rng fuel f exceptions tries delay max_delay backoff
      jitter None w = (r, w') ->
    warned (events w') = warned (events w) /\
    warnings (events w') = warnings (events w).
Proof.
  intros is_async rng fuel f exceptions tries delay max_delay backoff jitter
    w.
  apply (execute_rule is_async rng f exceptions tries delay max_delay backoff
           jitter None
           (fun w1 =>
              warned (events w1) = warned (events w) /\
              warnings (events w1) = warnings (events w))
           (fun _ w' =>
              warned (events w') = warned (events w) /\
              warnings (events w') = warnings (events w))).
  - split; reflexivity.
  - intros w1 H _. exact H.
  - intros w1 H _. exact H.
  - intros w1 r w2 H Hne Hp.
    inversion Hp; subst; cbn [events warned warnings told]; try exact H.
    + discriminate.
    + unfold after_retry. destruct jitter; exact H.
Qed.

Lemma no_logger_no_warning_witness :
  warned (events (snd run_delay_above_cap)) = warned (events fresh) /\
  warnings (events (snd run_delay_above_cap)) = warnings (events fresh).
Proof.
  apply (no_logger_no_warning false low_rng 3 always_zero_division
           (OneClass Exception) 3 5 (Some 2) 2 (JFixed 0) fresh
           (fst run_delay_above_cap)).
  reflexivity.
Defined.

(** X9. An initial delay within [max_delay] keeps every wait within it,
    for any operation, logger, backoff and jitter. *)
Theorem waits_stay_within_max_delay :
  forall is_async rng fuel f exceptions tries delay m backoff jitter logger
         w r w',
    delay <= m ->
    execute is_async rng fuel f exceptions tries delay (Some m) backoff
      jitter logger w = (r, w') ->
    exists later,
      waits (events w') = waits (events w) ++ later /\
      Forall (fun x => x <= m) later.
Proof.
  intros is_async rng fuel f exceptions tries delay m backoff jitter logger
    w r w' Hd Hrun.
  rewrite execute_unfold in Hrun.
  apply capped_loop_waits in Hrun; [exact Hrun | exact Hd].
Qed.

Lemma waits_stay_within_max_delay_witness :
  exists later,
    waits (events (snd run_range_jitter)) = waits (events fresh) ++ later /\
    Forall (fun x => x <= 6) later.
Proof.
  apply (waits_stay_within_max_delay true high_rng 4 always_zero_division
           (OneClass ArithmeticError) 4 1 6 2 (JRange 1 3)
           (Some logging_logger) fresh (fst run_range_jitter)).
  - lia.
  - reflexivity.
Defined.

Lemma draws_told logger e w : draws (told logger e w) = draws (events w).
Proof. destruct logger; reflexivity. Qed.

(** X10. A fixed jitter never consults the random generator: no run calls
    [random.uniform]. *)
Theorem fixed_jitter_draws_nothing :
  forall is_async rng fuel f exceptions tries delay max_delay backoff j
         logger w r w',
    execute is_async rng fuel f exceptions tries delay max_delay backoff
      (JFixed j) logger w = (r, w') ->
    draws (events w') = draws (events w).
Proof.
  intros is_async rng fuel f exceptions tries delay max_delay backoff j
    logger w.
  apply (execute_rule is_async rng f exceptions tries delay max_delay backoff
           (JFixed j) logger
           (fun w1 => draws (events w1) = draws (events w))
           (fun _ w' => draws (events w') = draws (events w))).
  - reflexivity.
  - intros w1 H _. exact H.
  - intros w1 H _. exact H.
  - intros w1 r w2 H Hne Hp.
    inversion Hp; subst; cbn [events draws]; rewrite ?draws_told;
      try exact H.
    unfold after_retry. destruct logger; exact H.
Qed.

Lemma fixed_jitter_draws_nothing_witness :
  draws (events (snd run_logger_breaks)) = draws (events fresh).
Proof.
  apply (fixed_jitter_draws_nothing false low_rng 5 always_zero_division
           (OneClass Exception) 5 1 None 2 0 (Some logger_breaks_later) fresh
           (fst run_logger_breaks)).
  reflexivity.
Defined.

(** X11. With a range jitter [(lo, hi)], [random.uniform] is called once
    after each wait, with these bounds and nothing else: the draws of a run
    are as many copies of [(lo, hi)] as the run has waits. *)
Theorem range_jitter_draws_once_per_wait :
  forall is_async rng fuel f exceptions tries delay max_delay backoff lo hi
         logger w r w',
    execute is_async rng fuel f exceptions tries delay max_delay backoff
      (JRange lo hi) logger w = (r, w') ->
    exists n,
      List.length (waits (events w')) =
        (List.length (waits (events w)) + n)%nat /\
      draws (events w') = draws (events w) ++ repeat (lo, hi) n.
Proof.
  intros is_async rng fuel f exceptions tries delay max_delay backoff lo hi
    logger w.
  apply (execute_rule is_async rng f exceptions tries delay max_delay backoff
           (JRange lo hi) logger
           (fun w1 =>
              exists n,
                List.length (waits (events w1)) =
                  (List.length (waits (events w)) + n)%nat /\
                draws (events w1) = draws (events w) ++ repeat (lo, hi) n)
           (fun _ w' =>
              exists n,
                List.length (waits (events w')) =
                  (List.length (waits (events w)) + n)%nat /\
                draws (events w') = draws (events w) ++ repeat (lo, hi) n)).
  - exists O. cbn [events repeat]. rewrite app_nil_r.
    split; [lia | reflexivity].
  - intros w1 H _. exact H.
  - intros w1 H _. exact H.
  - intros w1 r w2 [n [Hw Hdr]] Hne Hp.
    inversion Hp; subst; cbn [events draws waits];
      rewrite ?draws_told, ?waits_told; try (exists n; split; assumption).
    exists (S n). rewrite after_retry_waits, length_app. cbn [List.length].
    split; [lia|].
    unfold after_retry.
    destruct logger; cbn [events draws]; rewrite Hdr, <- app_assoc;
      f_equal; symmetry; apply (repeat_cons n (lo, hi)).
Qed.

Lemma range_jitter_draws_witness :
  exists n,
    List.length (waits (events (snd run_range_jitter))) =
      (List.length (waits (events fresh)) + n)%nat /\
    draws (events (snd run_range_jitter)) =
      draws (events fresh) ++ repeat (1, 3) n.
Proof.
  apply (range_jitter_draws_once_per_wait true high_rng 4
           always_zero_division (OneClass ArithmeticError) 4 1 (Some 6) 2 1 3
           (Some logging_logger) fresh (fst run_range_jitter)).
  reflexivity.
Defined.

Lemma warned_told lg e w :
  warned (told (Some lg) e w) = warned (events w) ++ [_delay w].
Proof. reflexivity. Qed.

(** X12. With a logger, every wait has been announced: the delays passed to
    [warning] are, in order, the delays then waited, followed by at most
    one more, the delay announced in a pass that the logger or the wait
    ended. *)
Theorem every_wait_is_announced :
  forall is_async rng fuel f exceptions tries delay max_delay backoff jitter
         lg w r w',
    execute is_async rng fuel f exceptions tries delay max_delay backoff
      jitter (Some lg) w = (r, w') ->
    exists new extra,
      waits (events w') = waits (events w) ++ new /\
      warned (events w') = warned (events w) ++ new ++ extra /\
      (List.length extra <= 1)%nat.
Proof.
  intros is_async rng fuel f exceptions tries delay max_delay backoff jitter
    lg w.
  apply (execute_rule is_async rng f exceptions tries delay max_delay backoff
           jitter (Some lg)
           (fun w1 =>
              exists new,
                waits (events w1) = waits (events w) ++ new /\
                warned (events w1) = warned (events w) ++ new)
           (fun _ w' =>
              exists new extra,
                waits (events w') = waits (events w) ++ new /\
                warned (events w') = warned (events w) ++ new ++ extra /\
                (List.length extra <= 1)%nat)).
  - exists []. rewrite !app_nil_r. split; reflexivity.
  - intros w1 [new [Hw Hn]] _. exists new, [].
    rewrite app_nil_r. repeat split; [assumption | assumption | cbn; lia].
  - intros w1 [new [Hw Hn]] _. exists new, [].
    rewrite app_nil_r. repeat split; [assumption | assumption | cbn; lia].
  - intros w1 r w2 [new [Hw Hn]] Hne Hp.
    inversion Hp; subst; cbn [events waits warned].
    + exists new, []. rewrite app_nil_r.
      repeat split; [assumption | assumption | cbn; lia].
    + exists new, []. rewrite app_nil_r.
      repeat split; [assumption | assumption | cbn; lia].
    + exists new, []. rewrite app_nil_r.
      repeat split; [assumption | assumption | cbn; lia].
    + exists new, [_delay w1]. rewrite Hn, <- app_assoc.
      repeat split; [assumption | cbn; lia].
    + exists new, [_delay w1]. cbn [told events waits warned].
      rewrite Hn, <- app_assoc.
      repeat split; [assumption | cbn; lia].
    + exists (new ++ [_delay w1]).
      rewrite after_retry_waits, Hw, <- app_assoc. split; [reflexivity|].
      unfold after_retry.
      destruct jitter; cbn [events warned]; rewrite Hn, <- app_assoc;
        reflexivity.
Qed.

Lemma every_wait_is_announced_witness :
  exists new extra,
    waits (events (snd run_logger_breaks)) = waits (events fresh) ++ new /\
    warned (events (snd run_logger_breaks)) =
      warned (events fresh) ++ new ++ extra /\
    (List.length extra <= 1)%nat.
Proof.
  apply (every_wait_is_announced false low_rng 5 always_zero_division
           (OneClass Exception) 5 1 None 2 (JFixed 0) logger_breaks_later
           fresh (fst run_logger_breaks)).
  reflexivity.
Defined.

(** ** Failures first, then something else *)

Lemma retried_waits_length rng f max_delay backoff jitter logger n :
  forall w,
    List.length
      (waits (events (retried n rng f max_delay backoff jitter logger w))) =
    (List.length (waits (events w)) + n)%nat.
Proof.
  induction n as [|n IH]; intros w.
  - cbn [retried]. lia.
  - cbn [retried]. rewrite IH, after_retry_waits, length_app.
    cbn [List.length]. lia.
Qed.

(** When the first [n] invocations fail with caught failures and the tries
    allow one more attempt, the run goes through [n] retried passes. *)
Lemma run_after_failures is_async rng f exceptions (n : nat) tries delay
    max_delay backoff jitter logger fuel w :
  tries < 0 \/ Z.of_nat (S n) <= tries ->
  calls (events w) = O ->
  (forall tr, (calls tr < n)%nat ->
     exists e, f tr = Raises e /\ isinstance e exceptions = true) ->
  quiet logger ->
  valid_delays delay max_delay backoff jitter ->
  sound rng ->
  let wn :=
    retried n rng f max_delay backoff jitter logger
      (mk_world tries delay (events w)) in
  execute is_async rng (n + fuel) f exceptions tries delay max_delay backoff
    jitter logger w =
  while_tries fuel
    (attempt_sync rng f exceptions max_delay backoff jitter logger) wn /\
  calls (events wn) = n /\
  _tries wn <> 0.
Proof.
  intros Ht Hc Hfail Hq Hv Hs wn.
  pose proof (valid_nonneg_jitter _ _ _ _ _ Hv Hs) as Hj.
  destruct Hv as (Hd & Hb & Hm & _).
  set (w1 := mk_world tries delay (events w)) in *.
  assert (Hcalls : forall i,
            calls (events (retried i rng f max_delay backoff jitter logger w1))
            = i).
  { intros i. rewrite retried_calls. unfold w1. cbn [events]. lia. }
  assert (Htries : forall i,
            _tries (retried i rng f max_delay backoff jitter logger w1) =
            tries - Z.of_nat i).
  { intros i. rewrite retried_tries. reflexivity. }
  split; [|split].
  - rewrite execute_unfold. fold w1. apply while_retried; [exact Hq|].
    intros i Hi. rewrite Htries. repeat split; try lia.
    + apply Hfail. rewrite Hcalls. exact Hi.
    + apply retried_delay_nonneg; assumption.
  - apply Hcalls.
  - unfold wn. rewrite Htries. lia.
Qed.

(** X13. Success within the tries.  When the operation fails with caught
    failures on its first [k - 1] invocations and returns [v] on the
    [k]-th, and the tries are unbounded or at least [k], the executor
    returns [v] after exactly [k] invocations and [k - 1] waits. *)
Theorem success_on_kth_attempt_within_tries :
  forall is_async rng f exceptions (k : nat) v tries delay max_delay backoff
         jitter logger fuel w,
    (1 <= k)%nat ->
    tries < 0 \/ Z.of_nat k <= tries ->
    (k <= fuel)%nat ->
    calls (events w) = O ->
    fails_then_returns f exceptions k v ->
    quiet logger ->
    valid_delays delay max_delay backoff jitter ->
    sound rng ->
    exists w',
      execute is_async rng fuel f exceptions tries delay max_delay backoff
        jitter logger w = (Val v, w') /\
      calls (events w') = k /\
      List.length (waits (events w')) =
        (List.length (waits (events w)) + (k - 1))%nat.
Proof.
  intros is_async rng f exceptions k v tries delay max_delay backoff jitter
    logger fuel w Hk Ht Hfuel Hc [Hfail Hret] Hq Hv Hs.
  destruct k as [|n]; [lia|].
  destruct (run_after_failures is_async rng f exceptions n tries delay
              max_delay backoff jitter logger (S (fuel - S n)) w Ht Hc)
    as (Hrun & Hcalls & Htries); try assumption.
  { intros tr Hlt. apply Hfail. lia. }
  replace (n + S (fuel - S n))%nat with fuel in Hrun by lia.
  rewrite Hrun, while_tries_step by exact Htries.
  rewrite (attempt_returns _ _ _ _ _ _ _ _ v)
    by (apply Hret; rewrite Hcalls; reflexivity).
  eexists. split; [reflexivity|].
  cbn [events calls waits]. rewrite Hcalls, retried_waits_length.
  cbn [events]. split; [reflexivity | lia].
Qed.

Lemma success_on_kth_attempt_witness :
  exists w',
    execute true low_rng 5 fails_twice_then_three (OneClass RuntimeError) 5
      0 None 1 (JFixed 0) (Some logging_logger) fresh = (Val (VInt 3), w') /\
    calls (events w') = 3%nat /\
    List.length (waits (events w')) =
      (List.length (waits (events fresh)) + (3 - 1))%nat.
Proof.
  apply success_on_kth_attempt_within_tries.
  - lia.
  - right. lia.
  - lia.
  - reflexivity.
  - split; intros tr H; unfold fails_twice_then_three.
    + destruct (Nat.eqb_spec (S (calls tr)) 3); [lia|].
      eexists. split; reflexivity.
    + rewrite H. reflexivity.
  - intros lg H tr e d. injection H as <-. reflexivity.
  - unfold valid_delays. lia.
  - intros tr lo hi H. unfold low_rng. lia.
Defined.

(** X14. A failure the [except] clause does not catch ends the run on
    whichever attempt it occurs: after [k - 1] caught failures, the
    uncaught failure of the [k]-th invocation is raised as it is, after
    [k] invocations and [k - 1] waits, however many tries are left. *)
Theorem uncaught_failure_on_kth_attempt :
  forall is_async rng f exceptions (k : nat) e tries delay max_delay backoff
         jitter logger fuel w,
    (1 <= k)%nat ->
    tries < 0 \/ Z.of_nat k <= tries ->
    (k <= fuel)%nat ->
    calls (events w) = O ->
    fails_then_raises f exceptions k e ->
    quiet logger ->
    valid_delays delay max_delay backoff jitter ->
    sound rng ->
    exists tr w',
      execute is_async rng fuel f exceptions tries delay max_delay backoff
        jitter logger w = (Exc e, w') /\
      events w' = EvCall (Raises e) :: tr /\
      calls (events w') = k /\
      List.length (waits (events w')) =
        (List.length (waits (events w)) + (k - 1))%nat.
Proof.
  intros is_async rng f exceptions k e tries delay max_delay backoff jitter
    logger fuel w Hk Ht Hfuel Hc (Hfail & Hlast & Hun) Hq Hv Hs.
  destruct k as [|n]; [lia|].
  destruct (run_after_failures is_async rng f exceptions n tries delay
              max_delay backoff jitter logger (S (fuel - S n)) w Ht Hc)
    as (Hrun & Hcalls & Htries); try assumption.
  { intros tr Hlt. apply Hfail. lia. }
  replace (n + S (fuel - S n))%nat with fuel in Hrun by lia.
  rewrite Hrun, while_tries_step by exact Htries.
  rewrite (attempt_fatal _ _ _ _ _ _ _ _ e)
    by (try exact Hun; apply Hlast; rewrite Hcalls; reflexivity).
  eexists _, _. split; [reflexivity|].
  cbn [events calls waits]. rewrite Hcalls, retried_waits_length.
  cbn [events]. repeat split; lia.
Qed.

Lemma uncaught_failure_on_kth_attempt_witness :
  exists tr w',
    execute false low_rng 3 interrupted_on_third (OneClass Exception) (-1) 1
      None 2 (JFixed 0) None fresh =
    (Exc (mk_exn KeyboardInterrupt 0), w') /\
    events w' = EvCall (Raises (mk_exn KeyboardInterrupt 0)) :: tr /\
    calls (events w') = 3%nat /\
    List.length (waits (events w')) =
      (List.length (waits (events fresh)) + (3 - 1))%nat.
Proof.
  apply uncaught_failure_on_kth_attempt.
  - lia.
  - left. lia.
  - lia.
  - reflexivity.
  - split; [|split].
    + intros tr H. unfold interrupted_on_third.
      destruct (Nat.eqb_spec (S (calls tr)) 3); [lia|].
      eexists. split; reflexivity.
    + intros tr H. unfold interrupted_on_third. rewrite H. reflexivity.
    + reflexivity.
  - intros lg H. discriminate H.
  - unfold valid_delays. lia.
  - intros tr lo hi H. unfold low_rng. lia.
Defined.

(** ** Delay schedules *)

Section FixedJitter.

Variable rng : generator.
Variable f : operation.
Variable logger : option Logger.
Variable j : Z.

Local Abbreviation after n := (retried n rng f None 1 (JFixed j) logger).

Lemma linear_delay n w : _delay (after n w) = _delay w + j * Z.of_nat n.
Proof.
  induction n as [|n IH].
  - cbn [retried]. lia.
  - rewrite retried_snoc. cbn [after_retry _delay clamp]. rewrite IH. lia.
Qed.

Lemma linear_waits n w :
  waits (events (after n w)) =
  waits (events w) ++ arithmetic_waits (_delay w) j n.
Proof.
  induction n as [|n IH].
  - cbn [retried arithmetic_waits seq map]. rewrite app_nil_r. reflexivity.
  - rewrite retried_snoc, after_retry_waits, IH, linear_delay.
    unfold arithmetic_waits. rewrite seq_S, map_app, <- app_assoc.
    reflexivity.
Qed.

Lemma linear_total_wait n w :
  2 * total_wait (events (after n w)) =
  2 * total_wait (events w) +
  Z.of_nat n * (2 * _delay w + j * (Z.of_nat n - 1)).
Proof.
  induction n as [|n IH].
  - cbn [retried]. lia.
  - rewrite retried_snoc, after_retry_total_wait, linear_delay.
    rewrite Nat2Z.inj_succ. nia.
Qed.

End FixedJitter.

(** X15. With integer arguments, which Python adds exactly, a fixed jitter
    [j >= 0], a backoff of [1] and no [max_delay], the delay grows by [j]
    after each wait: against an operation that always fails with a caught
    failure the waits are [d], [d + j], [d + 2 j], ... and their total
    over [N] tries is [(N - 1) d + j (0 + 1 + ... + (N - 2))], stated here
    doubled to stay in the integers. *)
Theorem fixed_jitter_waits_grow_linearly :
  forall is_async rng f exceptions (N : nat) d j logger fuel w,
    (1 <= N)%nat ->
    (N <= fuel)%nat ->
    always_fails f exceptions ->
    quiet logger ->
    0 <= d ->
    0 <= j ->
    exists e w',
      execute is_async rng fuel f exceptions (Z.of_nat N) d None 1 (JFixed j)
        logger w = (Exc e, w') /\
      waits (events w') = waits (events w) ++ arithmetic_waits d j (N - 1) /\
      2 * (total_wait (events w') - total_wait (events w)) =
      (Z.of_nat N - 1) * (2 * d + j * (Z.of_nat N - 2)).
Proof.
  intros is_async rng f exceptions N d j logger fuel w HN Hfuel Hf Hq Hd Hj.
  destruct N as [|n]; [lia|].
  destruct (always_fails_run is_async rng f exceptions n d None 1 (JFixed j)
              logger fuel w Hfuel Hf Hq Hd ltac:(lia) I Hj)
    as [e [He Hrun]].
  eexists e, _. split; [exact Hrun|].
  cbn [events total_wait waits].
  rewrite linear_waits. cbn [_delay events].
  replace (S n - 1)%nat with n by lia. split; [reflexivity|].
  pose proof (linear_total_wait rng f logger j n
                (mk_world (Z.of_nat (S n)) d (events w))) as Ht.
  cbn [_delay events] in Ht.
  set (total := total_wait (events (retried n rng f None 1 (JFixed j) logger
                 (mk_world (Z.of_nat (S n)) d (events w))))) in Ht |- *.
  rewrite Nat2Z.inj_succ. nia.
Qed.

Lemma fixed_jitter_witness :
  (exists e w',
     execute true low_rng 10 always_zero_division (OneClass Exception)
       (Z.of_nat 10) 0 None 1 (JFixed 1) (Some logging_logger) fresh =
     (Exc e, w') /\
     waits (events w') =
       waits (events fresh) ++ arithmetic_waits 0 1 (10 - 1) /\
     2 * (total_wait (events w') - total_wait (events fresh)) =
     (Z.of_nat 10 - 1) * (2 * 0 + 1 * (Z.of_nat 10 - 2))) /\
  arithmetic_waits 0 1 (10 - 1) = [0; 1; 2; 3; 4; 5; 6; 7; 8].
Proof.
  split.
  - apply fixed_jitter_waits_grow_linearly.
    + lia.
    + lia.
    + intros tr. eexists. split; reflexivity.
    + intros lg H tr e d. injection H as <-. reflexivity.
    + lia.
    + lia.
  - reflexivity.
Defined.

Section BackoffZero.

Variable rng : generator.
Variable f : operation.
Variable logger : option Logger.
Variable j : Z.

Local Abbreviation after n := (retried n rng f None 0 (JFixed j) logger).

Lemma collapsed_delay n w : _delay (after (S n) w) = j.
Proof.
  rewrite retried_snoc. cbn [after_retry _delay clamp]. lia.
Qed.

Lemma collapsed_waits n w :
  waits (events (after (S n) w)) =
  waits (events w) ++ _delay w :: repeat j n.
Proof.
  induction n as [|n IH].
  - cbn [retried repeat]. apply after_retry_waits.
  - rewrite retried_snoc, after_retry_waits, IH, collapsed_delay.
    rewrite <- app_assoc. cbn [app]. do 2 f_equal.
    symmetry. apply (repeat_cons n j).
Qed.

End BackoffZero.

(** X16. A backoff of [0] drops the initial delay after the first wait:
    with a fixed jitter [j] and no [max_delay], an operation that always
    fails with a caught failure is retried after [d], then after [j] every
    time. *)
Theorem backoff_zero_leaves_the_jitter :
  forall is_async rng f exceptions (N : nat) d j logger fuel w,
    (2 <= N)%nat ->
    (N <= fuel)%nat ->
    always_fails f exceptions ->
    quiet logger ->
    0 <= d ->
    0 <= j ->
    exists e w',
      execute is_async rng fuel f exceptions (Z.of_nat N) d None 0 (JFixed j)
        logger w = (Exc e, w') /\
      waits (events w') = waits (events w) ++ d :: repeat j (N - 2).
Proof.
  intros is_async rng f exceptions N d j logger fuel w HN Hfuel Hf Hq Hd Hj.
  destruct N as [|[|n]]; try lia.
  destruct (always_fails_run is_async rng f exceptions (S n) d None 0
              (JFixed j) logger fuel w Hfuel Hf Hq Hd ltac:(lia) I Hj)
    as [e [He Hrun]].
  eexists e, _. split; [exact Hrun|].
  cbn [events waits]. rewrite collapsed_waits. cbn [_delay events].
  replace (S (S n) - 2)%nat with n by lia. reflexivity.
Qed.

Lemma backoff_zero_witness :
  exists e w',
    execute false low_rng 4 always_zero_division (OneClass Exception)
      (Z.of_nat 4) 5 None 0 (JFixed 2) None fresh = (Exc e, w') /\
    waits (events w') = waits (events fresh) ++ 5 :: repeat 2 (4 - 2).
Proof.
  apply backoff_zero_leaves_the_jitter.
  - lia.
  - lia.
  - intros tr. eexists. split; reflexivity.
  - intros lg H. discriminate H.
  - lia.
  - lia.
Defined.

(** ** The public functions *)

(** X17. The public functions hand the bound arguments to the function.
    When [g] applied to the arguments returns [v], so do [retry_call_sync]
    and [retry_call_async] given these arguments, and the function decorated
    by [retry] applied to them, after a single invocation and without a
    wait, whatever the policy; arguments left out count as empty. *)
Theorem public_functions_pass_the_arguments :
  forall rng fuel (g : pyfun) fargs fkwargs exceptions tries delay max_delay
         backoff jitter logger w v,
    tries <> 0 ->
    g (or_empty fargs) (or_empty fkwargs) (events w) = Returns v ->
    let w' := mk_world tries delay (EvCall (Returns v) :: events w) in
    retry_call_sync rng (S fuel) g fargs fkwargs exceptions tries delay
      max_delay backoff jitter logger w = (Val v, w') /\
    retry_call_async rng (S fuel) g fargs fkwargs exceptions tries delay
      max_delay backoff jitter logger w = (Val v, w') /\
    forall is_async,
      exists dec,
        retry rng is_async exceptions tries delay max_delay backoff jitter
          logger w = (Val dec, w) /\
        dec g (S fuel) (or_empty fargs) (or_empty fkwargs) w = (Val v, w').
Proof.
  intros rng fuel g fargs fkwargs exceptions tries delay max_delay backoff
    jitter logger w v Ht Hg w'.
  assert (Hrun :
            __retry_internal_sync rng (S fuel)
              (partial g (or_empty fargs) (or_empty fkwargs)) exceptions
              tries delay max_delay backoff jitter logger w = (Val v, w')).
  { rewrite <- (execute_sync false), execute_unfold.
    rewrite while_tries_step by exact Ht.
    rewrite (attempt_returns _ _ _ _ _ _ _ _ v) by exact Hg.
    reflexivity. }
  split; [exact Hrun | split; [exact Hrun|]].
  intros is_async. unfold retry.
  destruct is_async; eexists; (split; [reflexivity|]);
    cbv beta zeta; rewrite !or_empty_some; exact Hrun.
Qed.

Lemma public_functions_witness :
  retry_call_sync low_rng 1 negative_or_raise (Some [VInt (-1)]) None
    (OneClass Exception) (-1) 0 None 1 (JFixed 0) (Some logging_logger)
    fresh =
  (Val (VInt (-1)), mk_world (-1) 0 [EvCall (Returns (VInt (-1)))]) /\
  retry_call_async low_rng 1 negative_or_raise (Some [VInt (-1)]) None
    (OneClass Exception) (-1) 0 None 1 (JFixed 0) (Some logging_logger)
    fresh =
  (Val (VInt (-1)), mk_world (-1) 0 [EvCall (Returns (VInt (-1)))]) /\
  forall is_async,
    exists dec,
      retry low_rng is_async (OneClass Exception) (-1) 0 None 1 (JFixed 0)
        (Some logging_logger) fresh = (Val dec, fresh) /\
      dec negative_or_raise 1%nat (or_empty (Some [VInt (-1)]))
        (or_empty None) fresh =
      (Val (VInt (-1)), mk_world (-1) 0 [EvCall (Returns (VInt (-1)))]).
Proof.
  apply (public_functions_pass_the_arguments low_rng 0 negative_or_raise
           (Some [VInt (-1)]) None (OneClass Exception) (-1) 0 None 1
           (JFixed 0) (Some logging_logger) fresh (VInt (-1))).
  - lia.
  - reflexivity.
Defined.

(** ** The schedule of the waits, for any operation *)

Lemma schedule_step max_delay backoff j : forall n d x,
  schedule max_delay backoff j d (S n) =
    schedule max_delay backoff j d n ++ [x] ->
  schedule max_delay backoff j d (S (S n)) =
    schedule max_delay backoff j d (S n) ++
    [next_delay max_delay backoff j x].
Proof.
  induction n as [|n IH]; intros d x H.
  - cbn [schedule app] in H |- *. injection H as <-. reflexivity.
  - change (schedule max_delay backoff j d (S (S n)))
      with (d :: schedule max_delay backoff j
                   (next_delay max_delay backoff j d) (S n)) in H.
    change (schedule max_delay backoff j d (S n))
      with (d :: schedule max_delay backoff j
                   (next_delay max_delay backoff j d) n) in H.
    cbn [app] in H. injection H as H.
    apply IH in H.
    change (schedule max_delay backoff j d (S (S (S n))))
      with (d :: schedule max_delay backoff j
                   (next_delay max_delay backoff j d) (S (S n))).
    rewrite H. reflexivity.
Qed.

(** X18. With a fixed jitter the waits of a run do not depend on the
    operation or the logger: whatever happens, the run waits through a
    prefix of one schedule, which starts with the initial delay and in
    which each delay is the one before it times the backoff, plus the
    jitter, clamped to [max_delay] when it is set. *)
Theorem waits_follow_the_schedule :
  forall is_async rng fuel f exceptions tries delay max_delay backoff j
         logger w r w',
    execute is_async rng fuel f exceptions tries delay max_delay backoff
      (JFixed j) logger w = (r, w') ->
    exists n,
      waits (events w') =
      waits (events w) ++ schedule max_delay backoff j delay n.
Proof.
  intros is_async rng fuel f exceptions tries delay max_delay backoff j
    logger w.
  apply (execute_rule is_async rng f exceptions tries delay max_delay backoff
           (JFixed j) logger
           (fun w1 =>
              exists n,
                waits (events w1) =
                  waits (events w) ++ schedule max_delay backoff j delay n /\
                schedule max_delay backoff j delay (S n) =
                  schedule max_delay backoff j delay n ++ [_delay w1])
           (fun _ w' =>
              exists n,
                waits (events w') =
                waits (events w) ++ schedule max_delay backoff j delay n)).
  - exists O. cbn [events schedule _delay app]. rewrite app_nil_r.
    split; reflexivity.
  - intros w1 [n [H _]] _. exists n. exact H.
  - intros w1 [n [H _]] _. exists n. exact H.
  - intros w1 r w2 [n [Hw Hs]] Hne Hp.
    inversion Hp; subst; cbn [events waits]; rewrite ?waits_told;
      try (exists n; exact Hw).
    exists (S n). split.
    + rewrite after_retry_waits, Hw, Hs, app_assoc. reflexivity.
    + apply schedule_step in Hs. rewrite Hs. reflexivity.
Qed.

Lemma waits_follow_the_schedule_witness :
  exists n,
    waits (events (snd run_logger_breaks)) =
    waits (events fresh) ++ schedule None 2 0 1 n.
Proof.
  apply (waits_follow_the_schedule false low_rng 5 always_zero_division
           (OneClass Exception) 5 1 None 2 0 (Some logger_breaks_later) fresh
           (fst run_logger_breaks)).
  reflexivity.
Defined.

Lemma jittered_snoc max_delay backoff lo hi : forall l a b,
  jittered max_delay backoff lo hi (l ++ [a]) ->
  next_delay max_delay backoff lo a <= b <=
    next_delay max_delay backoff hi a ->
  jittered max_delay backoff lo hi ((l ++ [a]) ++ [b]).
Proof.
  induction l as [|x l IH]; intros a b Hl Hab.
  - cbn. split; [exact Hab | exact I].
  - destruct l as [|y l].
    + cbn in Hl |- *. destruct Hl as [Hxa _].
      split; [exact Hxa|]. split; [exact Hab | exact I].
    + cbn [app jittered] in Hl. destruct Hl as [Hxy Hl].
      specialize (IH a b Hl Hab).
      cbn [app jittered] in IH |- *. split; [exact Hxy | exact IH].
Qed.

Lemma jittered_prefix max_delay backoff lo hi : forall l a,
  jittered max_delay backoff lo hi (l ++ [a]) ->
  jittered max_delay backoff lo hi l.
Proof.
  induction l as [|x l IH]; intros a Hl; [exact I|].
  destruct l as [|y l]; [exact I|].
  cbn [app jittered] in Hl |- *. destruct Hl as [Hxy Hl].
  split; [exact Hxy|]. apply (IH a). exact Hl.
Qed.

(** X19. With a range jitter [(lo, hi)] and a generator that keeps to its
    bounds, the waits of any run start with the initial delay and each
    later wait lies between the updates of the wait before it with a
    jitter of [lo] and with a jitter of [hi]. *)
Theorem range_jitter_bounds_each_wait :
  forall is_async rng fuel f exceptions tries delay max_delay backoff lo hi
         logger w r w',
    lo <= hi ->
    sound rng ->
    execute is_async rng fuel f exceptions tries delay max_delay backoff
      (JRange lo hi) logger w = (r, w') ->
    exists new,
      waits (events w') = waits (events w) ++ new /\
      hd delay new = delay /\
      jittered max_delay backoff lo hi new.
Proof.
  intros is_async rng fuel f exceptions tries delay max_delay backoff lo hi
    logger w r w' Hlo Hs.
  revert fuel r w'.
  apply (execute_rule is_async rng f exceptions tries delay max_delay backoff
           (JRange lo hi) logger
           (fun w1 =>
              exists new,
                waits (events w1) = waits (events w) ++ new /\
                hd delay (new ++ [_delay w1]) = delay /\
                jittered max_delay backoff lo hi (new ++ [_delay w1]))
           (fun _ w' =>
              exists new,
                waits (events w') = waits (events w) ++ new /\
                hd delay new = delay /\
                jittered max_delay backoff lo hi new)).
  - exists []. cbn [events _delay app hd jittered]. rewrite app_nil_r.
    repeat split.
  - intros w1 (new & Hw & Hh & Hj) _. exists new.
    split; [exact Hw|]. split; [|apply jittered_prefix in Hj; exact Hj].
    destruct new; [reflexivity | exact Hh].
  - intros w1 (new & Hw & Hh & Hj) _. exists new.
    split; [exact Hw|]. split; [|apply jittered_prefix in Hj; exact Hj].
    destruct new; [reflexivity | exact Hh].
  - intros w1 r w2 (new & Hw & Hh & Hj) Hne Hp.
    assert (HQ : exists new0,
               waits (events w1) = waits (events w) ++ new0 /\
               hd delay new0 = delay /\
               jittered max_delay backoff lo hi new0).
    { exists new. split; [exact Hw|].
      split; [|apply jittered_prefix in Hj; exact Hj].
      destruct new; [reflexivity | exact Hh]. }
    inversion Hp; subst; cbn [events waits]; rewrite ?waits_told;
      try exact HQ.
    exists (new ++ [_delay w1]).
    rewrite after_retry_waits, Hw, app_assoc. split; [reflexivity|].
    split.
    + destruct new; exact Hh.
    + apply jittered_snoc; [exact Hj|].
      unfold after_retry, next_delay, clamp. cbn [_delay].
      match goal with
      | |- context [rng ?tr lo hi] => pose proof (Hs tr lo hi Hlo) as Hx
      end.
      destruct max_delay; lia.
Qed.

Lemma range_jitter_bounds_witness :
  exists new,
    waits (events (snd run_range_jitter)) = waits (events fresh) ++ new /\
    hd 1 new = 1 /\
    jittered (Some 6) 2 1 3 new.
Proof.
  apply (range_jitter_bounds_each_wait true high_rng 4 always_zero_division
           (OneClass ArithmeticError) 4 1 (Some 6) 2 1 3
           (Some logging_logger) fresh (fst run_range_jitter)).
  - lia.
  - intros tr lo hi H. unfold high_rng. lia.
  - reflexivity.
Defined.

(** * The loop on other numbers *)

Import PrimFloat.

#[local] Set Warnings "-inexact-float".

(** C6, as the specification states it, fails on floats, the declared type
    of [delay] and [backoff]: each pass multiplies the rounded delay of the
    pass before, so that with [delay=0.1], [backoff=3] and [tries=4] the
    third wait is [0.9000000000000001] and the waits add up to
    [1.3000000000000003], while [sum(delay * backoff ** i for i in
    range(tries - 1))] is [1.3]. *)
Lemma C6_counterexample :
  fst Binary64.run_tenth_tripled = Exc (mk_exn ZeroDivisionError 3) /\
  Generic.calls Binary64.floats
    (Generic.events Binary64.floats (snd Binary64.run_tenth_tripled)) =
    4%nat /\
  Generic.waits Binary64.floats
    (Generic.events Binary64.floats (snd Binary64.run_tenth_tripled)) =
    [0.1; 0.30000000000000004; 0.9000000000000001]%float /\
  Binary64.total
    (Generic.waits Binary64.floats
       (Generic.events Binary64.floats (snd Binary64.run_tenth_tripled))) =
    1.3000000000000003%float /\
  Binary64.geometric_wait 0.1 3 4 = 1.3%float /\
  PrimFloat.eqb
    (Binary64.total
       (Generic.waits Binary64.floats
          (Generic.events Binary64.floats (snd Binary64.run_tenth_tripled))))
    (Binary64.geometric_wait 0.1 3 4) = false.
Proof. vm_compute. repeat split. Qed.

(** On floats a fixed jitter drifts as well: with [jitter=0.1] and the
    defaults for the rest the ninth wait is [0.7999999999999999], not
    [8 * 0.1]. *)
Lemma float_jitter_drifts :
  Generic.waits Binary64.floats
    (Generic.events Binary64.floats (snd Binary64.run_jitter_tenth)) =
  [0; 0.1; 0.2; 0.30000000000000004; 0.4; 0.5; 0.6; 0.7;
   0.7999999999999999]%float /\
  PrimFloat.eqb 0.7999999999999999 (8 * 0.1) = false.
Proof. vm_compute. repeat split. Qed.

(** ** Where an error comes from, for any numbers and any [time.sleep] *)

Lemma generic_while_done N fuel body w :
  Generic._tries N w = 0 ->
  Generic.while_tries N fuel body w = (Val VNone, w).
Proof.
  intros H.
  destruct fuel; cbn [Generic.while_tries];
    unfold Generic.bind, Generic.get_tries; rewrite H; reflexivity.
Qed.

Lemma generic_while_out_of_fuel N body w :
  Generic._tries N w <> 0 ->
  Generic.while_tries N 0 body w = (OutOfFuel, w).
Proof.
  intros H. apply Z.eqb_neq in H.
  cbn [Generic.while_tries].
  unfold Generic.bind, Generic.get_tries, Generic.out_of_fuel. rewrite H.
  reflexivity.
Qed.

Lemma generic_while_step N fuel body w :
  Generic._tries N w <> 0 ->
  Generic.while_tries N (S fuel) body w =
  match body w with
  | (Val (Some v), w') => (Val v, w')
  | (Val None, w') => Generic.while_tries N fuel body w'
  | (Exc e, w') => (Exc e, w')
  | (OutOfFuel, w') => (OutOfFuel, w')
  end.
Proof.
  intros H. apply Z.eqb_neq in H.
  cbn [Generic.while_tries]. unfold Generic.bind, Generic.get_tries.
  rewrite H.
  destruct (body w) as [[[v|]|e|] w']; reflexivity.
Qed.




(** ** The loop over the integers is the generic loop *)

Lemma down_up tr : map Integers.down (map Integers.up tr) = tr.
Proof.
  induction tr as [|ev tr IH]; [reflexivity|].
  cbn [map]. rewrite IH. destruct ev; reflexivity.
Qed.

Lemma py_min_integers d m :
  Generic.py_min Integers.integers d m = Z.min d m.
Proof.
  unfold Generic.py_min. cbn [Generic.ltb Integers.integers].
  destruct (Z.ltb_spec m d); lia.
Qed.

Ltac generic_step :=
  unfold Generic.attempt, Generic.try_except, Generic.invoke,
    Generic.warning, Generic.time_sleep, Generic.random_uniform,
    Generic.history, Generic.emit, Generic.get_tries, Generic.get_delay,
    Generic.set_tries, Generic.set_delay, Generic.raise, Generic.ret,
    Generic.bind, Integers.up_world, Integers.up_operation,
    Integers.up_generator, Integers.up_logger, Integers.refuses_negative;
  cbn [Generic._tries Generic._delay Generic.events Generic.refuses
       Generic.mul Generic.add Integers.integers map Integers.up
       Integers.down Integers.up_jitter option_map].

Lemma attempt_integers rng f exceptions max_delay backoff jitter logger w :
  Generic.attempt Integers.integers (Integers.up_generator rng)
    (Integers.up_operation f) exceptions max_delay backoff
    (Integers.up_jitter jitter) (option_map Integers.up_logger logger)
    (Integers.up_world w) =
  (fst (attempt_sync rng f exceptions max_delay backoff jitter logger w),
   Integers.up_world
     (snd (attempt_sync rng f exceptions max_delay backoff jitter logger w))).
Proof.
  destruct w as [t d tr].
  generic_step. step_monad. rewrite down_up.
  destruct (f tr) as [v|e]; [reflexivity|].
  destruct (isinstance e exceptions); [|reflexivity].
  generic_step. crunch.
  destruct (t - 1 =? 0); [reflexivity|].
  destruct logger as [lg|]; generic_step; crunch; rewrite ?down_up.
  - destruct (lg (EvCall (Raises e) :: tr) e d); [reflexivity|].
    generic_step. crunch.
    destruct (d <? 0); [reflexivity|].
    generic_step. crunch.
    destruct jitter as [j|lo hi], max_delay as [m|];
      generic_step; crunch; rewrite ?down_up, ?py_min_integers; reflexivity.
  - destruct (d <? 0); [reflexivity|].
    generic_step. crunch.
    destruct jitter as [j|lo hi], max_delay as [m|];
      generic_step; crunch; rewrite ?down_up, ?py_min_integers; reflexivity.
Qed.

Lemma while_integers rng f exceptions max_delay backoff jitter logger :
  forall fuel w,
    Generic.while_tries Integers.integers fuel
      (Generic.attempt Integers.integers (Integers.up_generator rng)
         (Integers.up_operation f) exceptions max_delay backoff
         (Integers.up_jitter jitter) (option_map Integers.up_logger logger))
      (Integers.up_world w) =
    (fst (while_tries fuel
            (attempt_sync rng f exceptions max_delay backoff jitter logger)
            w),
     Integers.up_world
       (snd (while_tries fuel
               (attempt_sync rng f exceptions max_delay backoff jitter
                  logger) w))).
Proof.
  induction fuel as [|fuel IH]; intros w.
  - destruct (Z.eq_dec (_tries w) 0) as [Ht|Ht].
    + rewrite generic_while_done, while_tries_done by exact Ht. reflexivity.
    + rewrite generic_while_out_of_fuel, while_tries_out_of_fuel
        by exact Ht.
      reflexivity.
  - destruct (Z.eq_dec (_tries w) 0) as [Ht|Ht].
    { rewrite generic_while_done, while_tries_done by exact Ht.
      reflexivity. }
    rewrite generic_while_step, while_tries_step by exact Ht.
    rewrite attempt_integers.
    destruct (attempt_sync rng f exceptions max_delay backoff jitter logger w)
      as [[[v|]|e|] w0]; cbn [fst snd]; try reflexivity.
    apply IH.
Qed.

(** The integer loop of this file and the generic loop run on the integers
    give the same result and, up to the type of the events, the same final
    state and trace. *)
Lemma integers_run_the_generic_loop is_async rng fuel f exceptions tries
    delay max_delay backoff jitter logger w :
  Generic.execute Integers.integers is_async (Integers.up_generator rng)
    fuel (Integers.up_operation f) exceptions tries delay max_delay backoff
    (Integers.up_jitter jitter) (option_map Integers.up_logger logger)
    (Integers.up_world w) =
  (fst (execute is_async rng fuel f exceptions tries delay max_delay backoff
          jitter logger w),
   Integers.up_world
     (snd (execute is_async rng fuel f exceptions tries delay max_delay
             backoff jitter logger w))).
Proof.
  rewrite execute_unfold.
  rewrite <- (while_integers rng f exceptions max_delay backoff jitter
                logger fuel (mk_world tries delay (events w))).
  destruct is_async; reflexivity.
Qed.
